(** * Api-Tester-Go: the request-dispatch and measurement engine

    A shallow embedding of [api-tester.go]: argument resolution, transport
    construction, the partition of calls over workers, the worker call loop
    ([fetchData]), the lock-protected aggregate and the final statistics.

    Conventions.
    - Go's [int] and [time.Duration] are 64-bit signed integers: they are
      values of [Z] with the wrap-around written out ([GoInt.wrap]).
    - [float64] is Rocq's primitive binary64 float.
    - Everything the program obtains from outside itself (URL parsing inside
      [http.NewRequest], [time.ParseDuration], what the network answers to
      each call, the clock) is a field of the [World] class.
    - A goroutine is the list of atomic actions it performs in program order;
      the process interleaves the goroutines' actions under a schedule. *)

From Stdlib Require Import ZArith Lia Ascii String.
From Stdlib Require Import Floats.PrimFloat Numbers.Cyclic.Int63.Uint63.
From stdpp Require Import base option list gmap strings.

Local Open Scope Z_scope.

(** ** Go machine integers *)

Module GoInt.

Definition min_int : Z := - 2 ^ 63.
Definition max_int : Z := 2 ^ 63 - 1.

Definition in_range (z : Z) : Prop := min_int <= z <= max_int.

Definition in_rangeb (z : Z) : bool := (min_int <=? z) && (z <=? max_int).

(** Two's-complement wrap-around of a mathematical integer into [int]. *)
Definition wrap (z : Z) : Z := (z + 2 ^ 63) mod 2 ^ 64 - 2 ^ 63.

Definition add (a b : Z) : Z := wrap (a + b).
Definition mul (a b : Z) : Z := wrap (a * b).

(** [a / b]: truncated quotient; a zero divisor is a run-time panic
    ([None]). *)
Definition quo (a b : Z) : option Z :=
  if b =? 0 then None else Some (wrap (Z.quot a b)).

(** [a % b]: remainder of the truncated division. *)
Definition rem (a b : Z) : option Z :=
  if b =? 0 then None else Some (Z.rem a b).

End GoInt.

(** ** float64 conversions and [time.Duration] *)

Module Float64.

(** [float64(z)] for an [int] value. *)
Definition of_int (z : Z) : float :=
  if z <? 0 then
    if z =? GoInt.min_int
    then PrimFloat.opp (PrimFloat.mul (of_uint63 (Uint63.of_Z (2 ^ 62))) (of_uint63 (Uint63.of_Z 2)))
    else PrimFloat.opp (of_uint63 (Uint63.of_Z (- z)))
  else of_uint63 (Uint63.of_Z z).

End Float64.

Module time.

(** A [Duration] is an [int64] count of nanoseconds. *)
Definition Duration := Z.

Definition Nanosecond : Duration := 1.
Definition Millisecond : Duration := 1000000.
Definition Second : Duration := 1000000000.

(** [Duration.Seconds]: [float64(d / Second) + float64(d % Second) / 1e9]. *)
Definition Seconds (d : Duration) : float :=
  PrimFloat.add (Float64.of_int (Z.quot d Second))
                (PrimFloat.div (Float64.of_int (Z.rem d Second))
                               (Float64.of_int 1000000000)).

End time.

(** ** [strconv.Atoi] *)

Module strconv.

Definition digit_of (c : ascii) : option Z :=
  let n := Z.of_N (N_of_ascii c) in
  if (48 <=? n) && (n <=? 57) then Some (n - 48) else None.

Fixpoint digits (s : string) (acc : Z) : option Z :=
  match s with
  | EmptyString => Some acc
  | String c s' =>
      match digit_of c with
      | Some d => digits s' (acc * 10 + d)
      | None => None
      end
  end.

(** The library function as the program uses it: an optional sign followed
    by at least one decimal digit, the value within [int]; anything else is
    an error ([None]). *)
Definition Atoi (s : string) : option Z :=
  match s with
  | EmptyString => None
  | String c rest =>
      let neg := Ascii.eqb c "-" in
      let body := if neg || Ascii.eqb c "+" then rest else s in
      match body with
      | EmptyString => None
      | _ =>
          match digits body 0 with
          | Some n =>
              let v := if neg then - n else n in
              if GoInt.in_rangeb v then Some v else None
          | None => None
          end
      end
  end.

End strconv.

(** ** Data model *)

Definition error := string.

(** The run parameters that [main] resolves from the command line. *)
Record Config := mkConfig {
  url : string;
  totalCalls : Z;
  numThreads : Z;
  sleepTime : time.Duration;
  requestTimeOut : time.Duration;
  connectTimeOut : time.Duration;
  reuseConnects : bool;
  keepConnectsOpen : bool
}.

(** [http.Header]: canonical key to the list of its values. *)
Record Request := mkRequest {
  Method : string;
  URL : string;
  Header : gmap string (list string)
}.

(** [Header.Add]: append a value to the values of a key. *)
Definition Header_Add (key value : string) (r : Request) : Request :=
  {| Method := Method r;
     URL := URL r;
     Header := <[key := default [] (Header r !! key) ++ [value]]> (Header r) |}.

Record Transport := mkTransport {
  MaxIdleConns : Z;
  IdleConnTimeout : time.Duration;
  DisableCompression : bool;
  DisableKeepAlives : bool;
  InsecureSkipVerify : bool
}.

Record Client := mkClient {
  ClientTransport : Transport;
  Timeout : time.Duration
}.

Record Response := mkResponse {
  Status : string
}.

(** What one [httpClient.Do] and the handling of its body meet in the
    world: the response and error of the call, the duration between the two
    clock readings around it, and the errors of draining and closing the
    body should the worker do so. *)
Record DoResult := mkDoResult {
  resp : option Response;
  do_err : option error;
  elapsed : time.Duration;
  copy_err : option error;
  close_err : option error
}.

(** The program's environment. *)
Class World := {
  (** [url.Parse] inside [http.NewRequest]: [Some e] when the URL is
      rejected. *)
  url_parse_error : string -> option error;
  (** [time.ParseDuration]; [None] is an error. *)
  ParseDuration : string -> option time.Duration;
  (** The outcome of call [i] of worker [threadID]. *)
  roundTrip : Z -> Z -> DoResult;
  (** [endTime.Sub(startTime)] in [main]. *)
  run_elapsed : time.Duration
}.

(** Lines written to standard output; the values are kept, their
    formatting is not modelled. *)
Inductive Line :=
| LNoArgs
| LUsage
| LBadURL (shown : string)
| LBadInt (token : string)
| LRequestCreationFailed (threadID : Z) (e : error)
| LRequestFailed (threadID i : Z) (e : error) (responseTime : float)
| LSuccess (threadID i : Z) (status : string) (responseTime : float)
| LTotalTime (totalTime : float)
| LAverageResponseTime (averageResponseTime : float)
| LRequestsPerSecond (requestsPerSecond : float)
| LFinished.

Inductive Panic :=
| DivideByZero
| IndexOutOfRange
| NilDereference.

(** The atomic actions of a worker goroutine. *)
Inductive Action :=
| APrint (l : Line)
| APanic (p : Panic)
| ADo (request : Request) (threadID i : Z)
| ADrain (threadID i : Z)
| AClose (threadID i : Z)
| ALogAppend (l : Line) (responseTime : float)
| ASleep (d : time.Duration)
| ADone.

(** ** The worker: [fetchData] *)

Section Worker.

Context `{W : World}.

(** [http.NewRequest(method, url, nil)] for a valid method. *)
Definition NewRequest (method url : string) : Request + error :=
  match url_parse_error url with
  | Some e => inr e
  | None => inl {| Method := method; URL := url; Header := ∅ |}
  end.

Variable request : Request.
Variable sleepTime_ : time.Duration.
Variable keepConnectsOpen_ : bool.
Variable threadID : Z.

(** The body handling of one iteration (source lines 58-65): the new
    [status], the [err] seen by the logging branch and the body actions. *)
Definition handleBody (status : string) (i : Z) (r : DoResult)
  : string * option error * list Action :=
  match resp r with
  | Some rp =>
      if negb keepConnectsOpen_
      then (Status rp, close_err r, [ADrain threadID i; AClose threadID i])
      else (Status rp, do_err r, [])
  | None => (status, do_err r, [])
  end.

Definition responseTimeOf (r : DoResult) : float :=
  PrimFloat.mul (time.Seconds (elapsed r)) (Float64.of_int 1000).

(** The line printed under the lock (source lines 68-72). *)
Definition logLine (i : Z) (err : option error) (status : string)
    (responseTime : float) : Line :=
  match err with
  | Some e => LRequestFailed threadID i e responseTime
  | None => LSuccess threadID i status responseTime
  end.

(** One iteration of the call loop: its actions and the [status] it
    leaves. *)
Definition iteration (status : string) (i : Z) : list Action * string :=
  let r := roundTrip threadID i in
  let responseTime := responseTimeOf r in
  let '(status', err, body) := handleBody status i r in
  (ADo request threadID i :: body ++
     [ALogAppend (logLine i err status' responseTime) responseTime;
      ASleep sleepTime_],
   status').

(** [for i := 0; i < numCalls; i++]: [n] iterations left, starting at
    [i]. *)
Fixpoint callLoop (n : nat) (i : Z) (status : string) : list Action :=
  match n with
  | O => []
  | S n' =>
      let '(acts, status') := iteration status i in
      acts ++ callLoop n' (i + 1) status'
  end.

(** The [status] variable after [n] iterations from index [i]. *)
Fixpoint statusAfter (n : nat) (i : Z) (status : string) : string :=
  match n with
  | O => status
  | S n' => statusAfter n' (i + 1) (iteration status i).2
  end.

End Worker.

Section FetchData.

Context `{W : World}.

Definition connectionValue (reuseConnects_ : bool) : string :=
  if reuseConnects_ then "keep-alive" else "close".

(** The actions of one worker, in program order.  When [http.NewRequest]
    fails the error is printed and [request] is nil: [request.Header.Add]
    then dereferences it, a run-time panic. *)
Definition fetchData (url_ : string) (sleepTime_ : time.Duration)
    (keepConnectsOpen_ reuseConnects_ : bool) (threadID numCalls : Z)
  : list Action :=
  match NewRequest "GET" url_ with
  | inr err =>
      [APrint (LRequestCreationFailed threadID err); APanic NilDereference]
  | inl request0 =>
      let request :=
        Header_Add "Connection" (connectionValue reuseConnects_) request0 in
      callLoop request sleepTime_ keepConnectsOpen_ threadID
               (Z.to_nat numCalls) 0 ""
        ++ [ADone]
  end.

(** The request every call of a worker is made with. *)
Definition requestTemplate (url_ : string) (reuseConnects_ : bool) : Request :=
  Header_Add "Connection" (connectionValue reuseConnects_)
             {| Method := "GET"; URL := url_; Header := ∅ |}.

End FetchData.

(** ** The process: goroutines interleaved under a schedule *)

(** The shared state of a run: what each worker has still to do, standard
    output, the aggregate [responseTimes], the actions performed so far
    (with the index of the worker that performed them) and the panic that
    ended the process, if any. *)
Record Pool := mkPool {
  goroutines : list (list Action);
  stdout : list Line;
  responseTimes : list float;
  history : list (nat * Action);
  panicked : option Panic
}.

Definition spawn (gs : list (list Action)) : Pool :=
  {| goroutines := gs; stdout := []; responseTimes := []; history := [];
     panicked := None |}.

(** Worker [k] performs its next action [a].  [ALogAppend] is the critical
    section between [mu.Lock()] and [mu.Unlock()]: the print and the
    [append] happen in one step. *)
Definition perform (k : nat) (a : Action) (rest : list Action) (p : Pool)
  : Pool :=
  let gs := <[k := rest]> (goroutines p) in
  let h := history p ++ [(k, a)] in
  match a with
  | APrint l =>
      mkPool gs (stdout p ++ [l]) (responseTimes p) h (panicked p)
  | APanic e =>
      mkPool gs (stdout p) (responseTimes p) h (Some e)
  | ALogAppend l rt =>
      mkPool gs (stdout p ++ [l]) (responseTimes p ++ [rt]) h (panicked p)
  | _ =>
      mkPool gs (stdout p) (responseTimes p) h (panicked p)
  end.

(** The scheduler picks worker [k]; a pick of a finished or absent worker,
    or any pick after a panic, changes nothing. *)
Definition step (p : Pool) (k : nat) : Pool :=
  match panicked p with
  | Some _ => p
  | None =>
      match goroutines p !! k with
      | Some (a :: rest) => perform k a rest p
      | _ => p
      end
  end.

Definition run (sched : list nat) (p : Pool) : Pool := fold_left step sched p.

Definition finished (g : list Action) : bool :=
  match g with [] => true | _ => false end.

(** [wg.Wait()] returns: every worker has run to its end. *)
Definition joined (p : Pool) : bool := forallb finished (goroutines p).

(** The schedule that runs the workers one after the other, each to its
    end; [k] is the index of the first worker of [gs]. *)
Fixpoint sequentialFrom (k : nat) (gs : list (list Action)) : list nat :=
  match gs with
  | [] => []
  | g :: gs' => replicate (length g) k ++ sequentialFrom (S k) gs'
  end.

Definition sequential (gs : list (list Action)) : list nat :=
  sequentialFrom 0 gs.

(** Observations on lists of actions. *)
Definition isAppend (a : Action) : option float :=
  match a with ALogAppend _ rt => Some rt | _ => None end.

Definition isCall (a : Action) : option (Z * Z) :=
  match a with ADo _ t i => Some (t, i) | _ => None end.

Definition isPanic (a : Action) : bool :=
  match a with APanic _ => true | _ => false end.

Definition isBodyRead (a : Action) : bool :=
  match a with ADrain _ _ | AClose _ _ => true | _ => false end.

(** The response times a list of actions appends, in order. *)
Definition appendsOf (acts : list Action) : list float := omap isAppend acts.

(** The calls a list of actions makes, in order. *)
Definition callsOf (acts : list Action) : list (Z * Z) := omap isCall acts.

(** The actions worker [k] has performed, in the order of the history. *)
Definition actionsOf (k : nat) (h : list (nat * Action)) : list Action :=
  snd <$> filter (fun e => e.1 = k) h.

(** The appends a worker still owes. *)
Definition owed (g : list Action) : nat := length (appendsOf g).

Definition panicFree (g : list Action) : Prop :=
  Forall (fun a => isPanic a = false) g.

(** A worker whose last action is a panic. *)
Definition endsInPanic (g : list Action) : Prop :=
  exists e, last g = Some (APanic e).

(** ** [main] *)

Definition set_url (v : string) (c : Config) : Config :=
  mkConfig v (totalCalls c) (numThreads c) (sleepTime c) (requestTimeOut c)
           (connectTimeOut c) (reuseConnects c) (keepConnectsOpen c).
Definition set_totalCalls (v : Z) (c : Config) : Config :=
  mkConfig (url c) v (numThreads c) (sleepTime c) (requestTimeOut c)
           (connectTimeOut c) (reuseConnects c) (keepConnectsOpen c).
Definition set_numThreads (v : Z) (c : Config) : Config :=
  mkConfig (url c) (totalCalls c) v (sleepTime c) (requestTimeOut c)
           (connectTimeOut c) (reuseConnects c) (keepConnectsOpen c).
Definition set_sleepTime (v : time.Duration) (c : Config) : Config :=
  mkConfig (url c) (totalCalls c) (numThreads c) v (requestTimeOut c)
           (connectTimeOut c) (reuseConnects c) (keepConnectsOpen c).
Definition set_requestTimeOut (v : time.Duration) (c : Config) : Config :=
  mkConfig (url c) (totalCalls c) (numThreads c) (sleepTime c) v
           (connectTimeOut c) (reuseConnects c) (keepConnectsOpen c).
Definition set_connectTimeOut (v : time.Duration) (c : Config) : Config :=
  mkConfig (url c) (totalCalls c) (numThreads c) (sleepTime c)
           (requestTimeOut c) v (reuseConnects c) (keepConnectsOpen c).
Definition set_reuseConnects (v : bool) (c : Config) : Config :=
  mkConfig (url c) (totalCalls c) (numThreads c) (sleepTime c)
           (requestTimeOut c) (connectTimeOut c) v (keepConnectsOpen c).
Definition set_keepConnectsOpen (v : bool) (c : Config) : Config :=
  mkConfig (url c) (totalCalls c) (numThreads c) (sleepTime c)
           (requestTimeOut c) (connectTimeOut c) (reuseConnects c) v.

(** The initial values of [main]'s variables (source lines 85-100). *)
Definition defaults : Config :=
  let requestTimeOut := GoInt.mul 10000 time.Millisecond in
  let connectTimeOut := GoInt.mul requestTimeOut 3 in
  {| url := "";
     totalCalls := 10000;
     numThreads := 12;
     sleepTime := GoInt.mul 0 time.Millisecond;
     requestTimeOut := requestTimeOut;
     connectTimeOut := connectTimeOut;
     reuseConnects := false;
     keepConnectsOpen := false |}.

(** How argument resolution ends: a configuration, an early return after
    printing, or a panic. *)
Inductive Resolution :=
| Resolved (c : Config)
| Rejected (printed : list Line)
| Crashed (p : Panic).

Definition isHelp (arg : string) : bool :=
  String.eqb arg "-?" || String.eqb arg "--help".

Section Main.

Context `{W : World}.

(** [time.ParseDuration(os.Args[i] + "ms")]. *)
Definition parseMillis (v : string) : option time.Duration :=
  ParseDuration (v ++ "ms")%string.

(** The loop over [os.Args[2:]] (source lines 128-174).  A flag that takes
    a value does [i++] and reads [os.Args[i]], which is out of range when
    the flag is the last argument. *)
Fixpoint parseFlags (c : Config) (rest : list string) : Resolution :=
  match rest with
  | [] => Resolved c
  | a :: tl =>
      if String.eqb a "-totalCalls" then
        match tl with
        | [] => Crashed IndexOutOfRange
        | v :: tl' =>
            match strconv.Atoi v with
            | Some n => parseFlags (set_totalCalls n c) tl'
            | None => Rejected [LBadInt v; LUsage]
            end
        end
      else if String.eqb a "-numThreads" then
        match tl with
        | [] => Crashed IndexOutOfRange
        | v :: tl' =>
            match strconv.Atoi v with
            | Some n => parseFlags (set_numThreads n c) tl'
            | None => Rejected [LBadInt v; LUsage]
            end
        end
      else if String.eqb a "-sleepTime" then
        match tl with
        | [] => Crashed IndexOutOfRange
        | v :: tl' =>
            match parseMillis v with
            | Some d => parseFlags (set_sleepTime d c) tl'
            | None => Rejected [LBadInt v; LUsage]
            end
        end
      else if String.eqb a "-requestTimeOut" then
        match tl with
        | [] => Crashed IndexOutOfRange
        | v :: tl' =>
            match parseMillis v with
            | Some d => parseFlags (set_requestTimeOut d c) tl'
            | None => Rejected [LBadInt v; LUsage]
            end
        end
      else if String.eqb a "-connectTimeOut" then
        match tl with
        | [] => Crashed IndexOutOfRange
        | v :: tl' =>
            match parseMillis v with
            | Some d => parseFlags (set_connectTimeOut d c) tl'
            | None => Rejected [LBadInt v; LUsage]
            end
        end
      else if String.eqb a "-reuseConnects" then
        parseFlags (set_reuseConnects true c) tl
      else if String.eqb a "-keepConnectsOpen" then
        parseFlags (set_keepConnectsOpen true c) tl
      else parseFlags c tl
  end.

(** Source lines 102-174; [args] is [os.Args]. *)
Definition resolve (args : list string) : Resolution :=
  match args with
  | [] | [_] => Rejected [LNoArgs; LUsage]
  | _ :: a1 :: rest =>
      if existsb isHelp (a1 :: rest) then Rejected [LUsage]
      else if String.prefix "http" a1
      then parseFlags (set_url a1 defaults) rest
      else Rejected [LBadURL (url defaults); LUsage]
  end.

End Main.

(** ** Transport, partition and statistics *)

Definition lower_ascii (c : ascii) : ascii :=
  let n := N_of_ascii c in
  if ((65 <=? n) && (n <=? 90))%N then ascii_of_N (n + 32) else c.

(** [strings.ToLower] on the ASCII letters. *)
Fixpoint ToLower (s : string) : string :=
  match s with
  | EmptyString => EmptyString
  | String c s' => String (lower_ascii c) (ToLower s')
  end.

(** Source lines 177-185. *)
Definition newTransport (c : Config) : Transport :=
  {| MaxIdleConns := GoInt.mul (numThreads c) 10;
     IdleConnTimeout := connectTimeOut c;
     DisableCompression := true;
     DisableKeepAlives := negb (reuseConnects c);
     InsecureSkipVerify := String.prefix "https" (ToLower (url c)) |}.

(** Source line 186. *)
Definition newClient (c : Config) : Client :=
  {| ClientTransport := newTransport c; Timeout := requestTimeOut c |}.

(** Source lines 194-197. *)
Definition numCallsOf (callsPerGoroutine remainderCalls i : Z) : Z :=
  if i <? remainderCalls then GoInt.add callsPerGoroutine 1
  else callsPerGoroutine.

(** Source lines 189-200: the pairs (worker index, number of calls) in
    launch order; [None] when a division panics. *)
Definition assignments (totalCalls_ numThreads_ : Z) : option (list (Z * Z)) :=
  callsPerGoroutine ← GoInt.quo totalCalls_ numThreads_;
  remainderCalls ← GoInt.rem totalCalls_ numThreads_;
  Some ((fun i => (i, numCallsOf callsPerGoroutine remainderCalls i))
          <$> seqZ 0 numThreads_).

Definition partition (totalCalls_ numThreads_ : Z) : option (list Z) :=
  (fun ws : list (Z * Z) => snd <$> ws) <$> assignments totalCalls_ numThreads_.

Definition Zsum (l : list Z) : Z := foldr Z.add 0 l.

(** The count the partition gives worker [i] when nothing wraps, in
    mathematical integers. *)
Definition share (base remainder i : Z) : Z :=
  if i <? remainder then base + 1 else base.

(** Source lines 213-216. *)
Definition totalResponseTime (rts : list float) : float :=
  fold_left PrimFloat.add rts PrimFloat.zero.

(** Source line 217. *)
Definition averageResponseTime (rts : list float) : float :=
  PrimFloat.div (totalResponseTime rts)
                (Float64.of_int (Z.of_nat (length rts))).

(** How a run of the process ends. *)
Inductive Exit :=
| Returned
| Panicking (p : Panic)
| Waiting.

Record Outcome := mkOutcome {
  printed : list Line;
  times : list float;
  performed : list (nat * Action);
  exit : Exit
}.

Section Engine.

Context `{W : World}.

(** The goroutines [main] starts (source lines 193-200). *)
Definition launch (c : Config) : option (list (list Action)) :=
  (fun ws : list (Z * Z) =>
     (fun w : Z * Z =>
        fetchData (url c) (sleepTime c) (keepConnectsOpen c)
                  (reuseConnects c) w.1 w.2) <$> ws)
    <$> assignments (totalCalls c) (numThreads c).

(** Source line 207. *)
Definition totalTime : float := time.Seconds run_elapsed.

(** Source line 210. *)
Definition requestsPerSecond (c : Config) : float :=
  PrimFloat.div (Float64.of_int (totalCalls c)) totalTime.

(** Source lines 219-226. *)
Definition summary (c : Config) (rts : list float) : list Line :=
  [LTotalTime totalTime;
   LAverageResponseTime (averageResponseTime rts);
   LRequestsPerSecond (requestsPerSecond c);
   LFinished].

(** Source lines 176-226 under the schedule [sched]. *)
Definition engine (c : Config) (sched : list nat) : Outcome :=
  let client := newClient c in
  match launch c with
  | None => mkOutcome [] [] [] (Panicking DivideByZero)
  | Some gs =>
      let p := run sched (spawn gs) in
      match panicked p with
      | Some e =>
          mkOutcome (stdout p) (responseTimes p) (history p) (Panicking e)
      | None =>
          if joined p
          then mkOutcome (stdout p ++ summary c (responseTimes p))
                         (responseTimes p) (history p) Returned
          else mkOutcome (stdout p) (responseTimes p) (history p) Waiting
      end
  end.

(** The program on the arguments [args] ([os.Args]). *)
Definition main (args : list string) (sched : list nat) : Outcome :=
  match resolve args with
  | Rejected ls => mkOutcome ls [] [] Returned
  | Crashed e => mkOutcome [] [] [] (Panicking e)
  | Resolved c => engine c sched
  end.

End Engine.

(** ** A sample world *)

Fixpoint hasCTLByte (s : string) : bool :=
  match s with
  | EmptyString => false
  | String c s' =>
      let n := N_of_ascii c in
      ((n <? 32) || (n =? 127))%N || hasCTLByte s'
  end.

(** Decimal milliseconds followed by the unit [ms]. *)
Definition sample_ParseDuration (s : string) : option time.Duration :=
  let n := (String.length s - 2)%nat in
  if String.eqb (String.substring n 2 s) "ms" && (0 <? n)%nat then
    match strconv.digits (String.substring 0 n s) 0 with
    | Some ms =>
        if GoInt.in_rangeb (ms * time.Millisecond)
        then Some (ms * time.Millisecond) else None
    | None => None
    end
  else None.

(** A world for running the model: URLs with a control byte are rejected,
    durations are unsigned decimal milliseconds, every third call of a
    worker fails without a response and the others are answered [200 OK]. *)
#[export] Instance sample_world : World := {
  url_parse_error u :=
    if hasCTLByte u then Some "net/url: invalid control character in URL"%string
    else None;
  ParseDuration := sample_ParseDuration;
  roundTrip threadID i :=
    if i mod 3 =? 2
    then mkDoResult None (Some "connection refused"%string)
                    (1500000 + threadID) None None
    else mkDoResult (Some (mkResponse "200 OK")) None
                    (2500000 + i) None None;
  run_elapsed := 40000000
}.

Definition sample_config : Config :=
  {| url := "http://localhost:9999";
     totalCalls := 5;
     numThreads := 2;
     sleepTime := 0;
     requestTimeOut := 10000 * time.Millisecond;
     connectTimeOut := 30000 * time.Millisecond;
     reuseConnects := false;
     keepConnectsOpen := false |}.

(** An interleaving of the two workers of [sample_config]. *)
Definition sample_schedule : list nat :=
  [0; 1; 1; 0; 0; 1; 0; 1; 1; 0; 0; 0; 0; 0; 1; 1; 1; 1; 0; 0; 0; 0; 0; 0; 1; 1]%nat.

(** ** Further observations *)

(** The flags of [main] that read the next argument as their value. *)
Definition valueFlags : list string :=
  ["-totalCalls"; "-numThreads"; "-sleepTime"; "-requestTimeOut";
   "-connectTimeOut"]%string.

(** The flags of [main] that take no value. *)
Definition switchFlags : list string :=
  ["-reuseConnects"; "-keepConnectsOpen"]%string.

(** The response time shown in a per-call log line. *)
Definition lineTime (l : Line) : option float :=
  match l with
  | LRequestFailed _ _ _ rt | LSuccess _ _ _ rt => Some rt
  | _ => None
  end.

(** An action that prints a per-call line appends the time it prints, and
    a print outside the lock is not a per-call line. *)
Definition wellLogged (a : Action) : Prop :=
  match a with
  | ALogAppend l rt => lineTime l = Some rt
  | APrint l => lineTime l = None
  | _ => True
  end.

Definition isSleep (a : Action) : option time.Duration :=
  match a with ASleep d => Some d | _ => None end.

(** The sleeps of a list of actions, in order. *)
Definition sleepsOf (acts : list Action) : list time.Duration := omap isSleep acts.

(** [printHelp] (source lines 15-30): the lines that [LUsage] stands
    for. *)
Definition printHelp : list string :=
  ["Usage:";
   "  api-tester [URL] [arguments]";
   "Required arguments:";
   "  [URL]                   - Server URL.";
   "Optional Arguments:";
   "  -totalCalls [value]     - Total number of calls across all threads. Default is 10000.";
   "  -numThreads [value]     - Number of threads. Default is 12.";
   "  -sleepTime [value]      - Sleep time in milliseconds between calls within a thread. Default is 0.";
   "  -requestTimeOut [value] - HTTP request timeout in milliseconds. Default is 10000.";
   "  -connectTimeOut [value] - HTTP request timeout in milliseconds. Default is 20000.";
   "  -reuseConnects          - Add the request 'Connection: keep-alive' header.";
   "  -keepConnectsOpen       - Force a new connection with every request (not advised).";
   "Help:";
   "  -? or --help - Display this help message."]%string.

(** The line an action writes to standard output. *)
Definition isLine (a : Action) : option Line :=
  match a with
  | APrint l | ALogAppend l _ => Some l
  | _ => None
  end.

(** The lines a list of actions writes, in order. *)
Definition linesOf (acts : list Action) : list Line := omap isLine acts.

(** A world in which every call is redirected until the client gives up:
    [Do] returns the last response together with an error, and the body
    closes without error. *)
Definition redirect_world : World := {|
  url_parse_error _ := None;
  ParseDuration := sample_ParseDuration;
  roundTrip _ _ :=
    mkDoResult (Some (mkResponse "302 Found"))
               (Some "stopped after 10 redirects"%string)
               3000000 None None;
  run_elapsed := 40000000
|}.

(** A world whose clock does not advance between the two readings of
    [main]; every call is answered [200 OK]. *)
Definition stalled_clock_world : World := {|
  url_parse_error _ := None;
  ParseDuration := sample_ParseDuration;
  roundTrip _ _ := mkDoResult (Some (mkResponse "200 OK")) None 0 None None;
  run_elapsed := 0
|}.

(** One worker, one call. *)
Definition single_call_config : Config :=
  {| url := "http://localhost:9999";
     totalCalls := 1;
     numThreads := 1;
     sleepTime := 0;
     requestTimeOut := 10000 * time.Millisecond;
     connectTimeOut := 30000 * time.Millisecond;
     reuseConnects := false;
     keepConnectsOpen := false |}.

(** * Properties *)

(** ** The partition of calls over workers *)

Lemma wrap_in_range z : GoInt.in_range z -> GoInt.wrap z = z.
Proof.
  unfold GoInt.in_range, GoInt.wrap, GoInt.min_int, GoInt.max_int. intros H.
  rewrite Z.mod_small; lia.
Qed.

Section Partition.

Variables base remainder : Z.

Abbreviation share_ := (share base remainder).

Lemma Zsum_app l1 l2 : Zsum (l1 ++ l2) = Zsum l1 + Zsum l2.
Proof. unfold Zsum. induction l1 as [|x l1 IH]; simpl; lia. Qed.

Lemma Zsum_share (n : nat) :
  0 <= remainder ->
  Zsum (share_ <$> seqZ 0 (Z.of_nat n))
  = Z.of_nat n * base + Z.min (Z.of_nat n) remainder.
Proof.
  intros Hr. induction n as [|n IH].
  - simpl. lia.
  - rewrite seqZ_S, fmap_app, Zsum_app, IH. simpl. unfold share.
    destruct (Z.ltb_spec (0 + Z.of_nat n) remainder); lia.
Qed.

Lemma count_share (n : nat) :
  0 <= remainder ->
  length (filter (fun c => c = base + 1) (share_ <$> seqZ 0 (Z.of_nat n)))
  = Z.to_nat (Z.min (Z.of_nat n) remainder).
Proof.
  intros Hr. induction n as [|n IH].
  - simpl. lia.
  - rewrite seqZ_S, fmap_app, filter_app, List.length_app, IH. simpl.
    unfold share.
    destruct (Z.ltb_spec (0 + Z.of_nat n) remainder).
    + rewrite filter_cons_True by done. simpl. lia.
    + rewrite filter_cons_False by lia. simpl. lia.
Qed.

End Partition.

(** On a non-negative total and a positive worker count neither division
    panics and no count wraps: the partition is [share] of the floor
    quotient and remainder over the worker indices. *)
Lemma assignments_share (totalCalls_ numThreads_ : Z) :
  0 <= totalCalls_ <= GoInt.max_int ->
  1 <= numThreads_ <= GoInt.max_int ->
  assignments totalCalls_ numThreads_
  = Some ((fun i => (i, share (totalCalls_ / numThreads_)
                              (totalCalls_ mod numThreads_) i))
            <$> seqZ 0 numThreads_).
Proof.
  intros Ht Hn. unfold assignments, GoInt.quo, GoInt.rem.
  destruct (Z.eqb_spec numThreads_ 0) as [|_]; [lia|]. simpl.
  rewrite Z.quot_div_nonneg, Z.rem_mod_nonneg by lia.
  assert (Hq : 0 <= totalCalls_ / numThreads_ <= totalCalls_).
  { split; [apply Z.div_pos; lia|]. apply Z.div_le_upper_bound; nia. }
  assert (Hm : 0 <= totalCalls_ mod numThreads_ < numThreads_)
    by (apply Z.mod_pos_bound; lia).
  pose proof (Z.div_mod totalCalls_ numThreads_ ltac:(lia)) as Hdm.
  rewrite wrap_in_range by (unfold GoInt.in_range, GoInt.min_int, GoInt.max_int in *; lia).
  f_equal. apply list_fmap_ext. intros k i Hk.
  apply lookup_seqZ in Hk as [-> Hk]. f_equal.
  unfold numCallsOf, share, GoInt.add.
  destruct (Z.ltb_spec (0 + Z.of_nat k) (totalCalls_ mod numThreads_)); [|done].
  apply wrap_in_range.
  unfold GoInt.in_range, GoInt.min_int, GoInt.max_int in *. nia.
Qed.

Lemma partition_share (totalCalls_ numThreads_ : Z) :
  0 <= totalCalls_ <= GoInt.max_int ->
  1 <= numThreads_ <= GoInt.max_int ->
  partition totalCalls_ numThreads_
  = Some (share (totalCalls_ / numThreads_) (totalCalls_ mod numThreads_)
            <$> seqZ 0 numThreads_).
Proof.
  intros Ht Hn. unfold partition. rewrite assignments_share by done. simpl.
  f_equal. rewrite <- list_fmap_compose. done.
Qed.

(** C1. For every [totalCalls >= 0] and [numThreads >= 1] (both of type
    [int]) the coordinator's partition gives worker [i] the count
    [totalCalls / numThreads], plus one when [i < totalCalls mod numThreads];
    the counts sum to [totalCalls], any two differ by at most 1, exactly
    [totalCalls mod numThreads] workers receive the larger count and they
    are the lowest-indexed ones; [totalCalls = 10], [numThreads = 3] yields
    4, 3, 3 for workers 0, 1, 2. *)
Theorem partition_balanced (totalCalls_ numThreads_ : Z) :
  0 <= totalCalls_ <= GoInt.max_int ->
  1 <= numThreads_ <= GoInt.max_int ->
  let base := totalCalls_ / numThreads_ in
  let remainder := totalCalls_ mod numThreads_ in
  exists counts : list Z,
    partition totalCalls_ numThreads_ = Some counts /\
    length counts = Z.to_nat numThreads_ /\
    (forall i : nat, Z.of_nat i < numThreads_ ->
       counts !! i = Some (if Z.of_nat i <? remainder then base + 1 else base)) /\
    Zsum counts = totalCalls_ /\
    (forall a b, a ∈ counts -> b ∈ counts -> Z.abs (a - b) <= 1) /\
    length (filter (fun c => c = base + 1) counts) = Z.to_nat remainder /\
    (forall i : nat, counts !! i = Some (base + 1) <-> Z.of_nat i < remainder) /\
    partition 10 3 = Some [4; 3; 3].
Proof.
  intros Ht Hn base remainder.
  assert (Hm : 0 <= remainder < numThreads_) by (apply Z.mod_pos_bound; lia).
  pose proof (Z.div_mod totalCalls_ numThreads_ ltac:(lia)) as Hdm.
  fold base remainder in Hdm.
  exists (share base remainder <$> seqZ 0 numThreads_).
  split; [by apply partition_share|].
  split; [by rewrite length_fmap, length_seqZ|].
  split.
  { intros i Hi. rewrite list_lookup_fmap, lookup_seqZ_lt by done. done. }
  split.
  { rewrite <- (Z2Nat.id numThreads_) at 1 by lia.
    rewrite Zsum_share by lia. rewrite Z2Nat.id by lia. lia. }
  split.
  { intros a b Ha Hb.
    apply list_elem_of_fmap in Ha as (i & -> & _).
    apply list_elem_of_fmap in Hb as (j & -> & _).
    unfold share. repeat case_match; lia. }
  split.
  { rewrite <- (Z2Nat.id numThreads_) at 1 by lia.
    rewrite count_share by lia. rewrite Z2Nat.id by lia. f_equal. lia. }
  split; [|reflexivity].
  intros i. rewrite list_lookup_fmap. split.
  - intros Hi. destruct (seqZ 0 numThreads_ !! i) as [j|] eqn:Hj; [|done].
    apply lookup_seqZ in Hj as [-> Hj]. simpl in Hi. unfold share in Hi.
    destruct (Z.ltb_spec (0 + Z.of_nat i) remainder); [lia|].
    injection Hi. lia.
  - intros Hi. rewrite lookup_seqZ_lt by lia. simpl. unfold share.
    destruct (Z.ltb_spec (0 + Z.of_nat i) remainder); [done|lia].
Qed.

Lemma partition_balanced_witness :
  exists counts : list Z,
    partition 7 4 = Some counts /\ Zsum counts = 7 /\ counts !! 3%nat = Some 1.
Proof.
  destruct (partition_balanced 7 4) as (counts & Hp & _ & Hl & Hs & _).
  - unfold GoInt.max_int. lia.
  - unfold GoInt.max_int. lia.
  - exists counts. split; [exact Hp|]. split; [exact Hs|].
    exact (Hl 3%nat ltac:(lia)).
Defined.

(** ** The call loop *)

Section CallLoop.

Context `{W : World}.
Variable request : Request.
Variable sleepTime_ : time.Duration.
Variable keepConnectsOpen_ : bool.
Variable threadID : Z.

Abbreviation iteration_ := (iteration request sleepTime_ keepConnectsOpen_ threadID).
Abbreviation callLoop_ := (callLoop request sleepTime_ keepConnectsOpen_ threadID).
Abbreviation statusAfter_ := (statusAfter request sleepTime_ keepConnectsOpen_ threadID).

Lemma callLoop_S n i status :
  callLoop_ (S n) i status
  = (iteration_ status i).1 ++ callLoop_ n (i + 1) (iteration_ status i).2.
Proof. simpl. by destruct (iteration_ status i). Qed.

(** The loop after [k] iterations is the loop on what is left. *)
Lemma callLoop_app k m i status :
  callLoop_ (k + m) i status
  = callLoop_ k i status
      ++ callLoop_ m (i + Z.of_nat k) (statusAfter_ k i status).
Proof.
  revert i status. induction k as [|k IH]; intros i status.
  - simpl. by rewrite Z.add_0_r.
  - change (S k + m)%nat with (S (k + m)). rewrite !callLoop_S, IH.
    rewrite <- app_assoc. cbn [statusAfter].
    by replace (i + 1 + Z.of_nat k) with (i + Z.of_nat (S k)) by lia.
Qed.

(** Iteration [k] of a loop of [n] calls, with what precedes and what
    follows it. *)
Lemma callLoop_at n k status :
  (k < n)%nat ->
  callLoop_ n 0 status
  = callLoop_ k 0 status
      ++ (iteration_ (statusAfter_ k 0 status) (Z.of_nat k)).1
      ++ callLoop_ (n - S k) (Z.of_nat k + 1)
                   (iteration_ (statusAfter_ k 0 status) (Z.of_nat k)).2.
Proof.
  intros Hk. replace n with (k + S (n - S k))%nat at 1 by lia.
  rewrite callLoop_app, callLoop_S. by rewrite Z.add_0_l.
Qed.

(** The three ways through the body handling of source lines 58-65. *)
Lemma iteration_no_response status i :
  resp (roundTrip threadID i) = None ->
  let r := roundTrip threadID i in
  iteration_ status i
  = ([ADo request threadID i;
      ALogAppend (logLine threadID i (do_err r) status (responseTimeOf r))
                 (responseTimeOf r);
      ASleep sleepTime_], status).
Proof. intros H. unfold iteration, handleBody. by rewrite H. Qed.

Lemma iteration_drained status i rp :
  resp (roundTrip threadID i) = Some rp ->
  keepConnectsOpen_ = false ->
  let r := roundTrip threadID i in
  iteration_ status i
  = ([ADo request threadID i;
      ADrain threadID i;
      AClose threadID i;
      ALogAppend (logLine threadID i (close_err r) (Status rp) (responseTimeOf r))
                 (responseTimeOf r);
      ASleep sleepTime_], Status rp).
Proof. intros H Hk. unfold iteration, handleBody. by rewrite H, Hk. Qed.

Lemma iteration_kept_open status i rp :
  resp (roundTrip threadID i) = Some rp ->
  keepConnectsOpen_ = true ->
  let r := roundTrip threadID i in
  iteration_ status i
  = ([ADo request threadID i;
      ALogAppend (logLine threadID i (do_err r) (Status rp) (responseTimeOf r))
                 (responseTimeOf r);
      ASleep sleepTime_], Status rp).
Proof. intros H Hk. unfold iteration, handleBody. by rewrite H, Hk. Qed.

Ltac iteration_cases status i :=
  unfold iteration, handleBody;
  destruct (resp (roundTrip threadID i));
  [destruct keepConnectsOpen_|]; simpl.

(** Whatever the call returns, an iteration makes one call, appends one
    response time and panics nowhere. *)
Lemma iteration_appends status i :
  appendsOf (iteration_ status i).1 = [responseTimeOf (roundTrip threadID i)].
Proof. iteration_cases status i; reflexivity. Qed.

Lemma iteration_calls status i :
  callsOf (iteration_ status i).1 = [(threadID, i)].
Proof. iteration_cases status i; reflexivity. Qed.

Lemma iteration_no_panic status i :
  Forall (fun a => isPanic a = false) (iteration_ status i).1.
Proof. iteration_cases status i; repeat constructor. Qed.

Lemma iteration_requests status i :
  Forall (fun a => forall r t j, a = ADo r t j -> r = request)
         (iteration_ status i).1.
Proof.
  iteration_cases status i; repeat constructor; intros; congruence.
Qed.

Lemma iteration_no_body_read status i :
  keepConnectsOpen_ = true ->
  Forall (fun a => isBodyRead a = false) (iteration_ status i).1.
Proof.
  intros Hk. unfold iteration, handleBody. rewrite Hk.
  destruct (resp (roundTrip threadID i)); simpl; repeat constructor.
Qed.

(** The loop of [n] iterations from index [i]. *)
Lemma callLoop_appends n i status :
  appendsOf (callLoop_ n i status)
  = (fun j => responseTimeOf (roundTrip threadID j)) <$> seqZ i (Z.of_nat n).
Proof.
  revert i status. induction n as [|n IH]; intros i status; [done|].
  rewrite callLoop_S. unfold appendsOf in *. rewrite omap_app.
  rewrite iteration_appends, IH.
  rewrite (seqZ_cons i) by lia. simpl. do 3 f_equal; lia.
Qed.

Lemma callLoop_calls n i status :
  callsOf (callLoop_ n i status)
  = (fun j => (threadID, j)) <$> seqZ i (Z.of_nat n).
Proof.
  revert i status. induction n as [|n IH]; intros i status; [done|].
  rewrite callLoop_S. unfold callsOf in *. rewrite omap_app.
  rewrite iteration_calls, IH.
  rewrite (seqZ_cons i) by lia. simpl. do 3 f_equal; lia.
Qed.

Lemma callLoop_no_panic n i status :
  Forall (fun a => isPanic a = false) (callLoop_ n i status).
Proof.
  revert i status. induction n as [|n IH]; intros i status; [constructor|].
  rewrite callLoop_S. apply Forall_app. split; [apply iteration_no_panic|apply IH].
Qed.

Lemma callLoop_requests n i status :
  Forall (fun a => forall r t j, a = ADo r t j -> r = request)
         (callLoop_ n i status).
Proof.
  revert i status. induction n as [|n IH]; intros i status; [constructor|].
  rewrite callLoop_S. apply Forall_app. split; [apply iteration_requests|apply IH].
Qed.

Lemma callLoop_no_body_read n i status :
  keepConnectsOpen_ = true ->
  Forall (fun a => isBodyRead a = false) (callLoop_ n i status).
Proof.
  intros Hk. revert i status.
  induction n as [|n IH]; intros i status; [constructor|].
  rewrite callLoop_S. apply Forall_app.
  split; [by apply iteration_no_body_read|apply IH].
Qed.

End CallLoop.

(** ** Invariants of the interleaved execution *)

Section PoolFacts.

Lemma sum_list_with_insert {A} (f : A -> nat) (l : list A) (k : nat) (x y : A) :
  l !! k = Some x ->
  (sum_list_with f (<[k := y]> l) + f x = sum_list_with f l + f y)%nat.
Proof.
  revert k. induction l as [|z l IH]; intros [|k] Hk; simplify_eq/=.
  - lia.
  - specialize (IH _ Hk). lia.
Qed.

Lemma step_cases (p : Pool) (k : nat) :
  step p k = p \/
  exists a rest,
    panicked p = None /\ goroutines p !! k = Some (a :: rest) /\
    step p k = perform k a rest p.
Proof.
  unfold step. destruct (panicked p); [by left|].
  destruct (goroutines p !! k) as [[|a rest]|] eqn:Hk; [by left| |by left].
  right. by exists a, rest.
Qed.

Lemma perform_goroutines k a rest p :
  goroutines (perform k a rest p) = <[k := rest]> (goroutines p).
Proof. by destruct a. Qed.

Lemma perform_history k a rest p :
  history (perform k a rest p) = history p ++ [(k, a)].
Proof. by destruct a. Qed.

Lemma perform_responseTimes k a rest p :
  responseTimes (perform k a rest p) = responseTimes p ++ appendsOf [a].
Proof. destruct a; simpl; by rewrite ?app_nil_r. Qed.

Lemma perform_panicked k a rest p :
  isPanic a = false -> panicked (perform k a rest p) = panicked p.
Proof. by destruct a. Qed.

(** Appends made plus appends owed is constant along a run. *)
Lemma step_owed p k :
  (length (responseTimes (step p k)) + sum_list_with owed (goroutines (step p k))
   = length (responseTimes p) + sum_list_with owed (goroutines p))%nat.
Proof.
  destruct (step_cases p k) as [->|(a & rest & _ & Hk & ->)]; [done|].
  rewrite perform_goroutines, perform_responseTimes, List.length_app.
  pose proof (sum_list_with_insert owed _ _ _ rest Hk) as Hs.
  assert (owed (a :: rest) = (length (appendsOf [a]) + owed rest)%nat) as Ho.
  { unfold owed, appendsOf. change (a :: rest) with ([a] ++ rest).
    by rewrite omap_app, List.length_app. }
  lia.
Qed.

Lemma run_owed sched p :
  (length (responseTimes (run sched p)) + sum_list_with owed (goroutines (run sched p))
   = length (responseTimes p) + sum_list_with owed (goroutines p))%nat.
Proof.
  revert p. induction sched as [|k sched IH]; intros p; [done|].
  unfold run in *. simpl. rewrite IH. apply step_owed.
Qed.

Lemma joined_owed p : joined p = true -> sum_list_with owed (goroutines p) = 0%nat.
Proof.
  unfold joined. induction (goroutines p) as [|g gs IH]; [done|].
  simpl. intros [Hg Hgs]%andb_true_iff. destruct g; [|done]. by rewrite IH.
Qed.

(** Workers that contain no panic never panic the process. *)
Lemma step_panicFree p k :
  panicked p = None -> Forall panicFree (goroutines p) ->
  panicked (step p k) = None /\ Forall panicFree (goroutines (step p k)).
Proof.
  intros Hp Hg.
  destruct (step_cases p k) as [->|(a & rest & _ & Hk & ->)]; [done|].
  assert (panicFree (a :: rest)) as Har.
  { eapply Forall_lookup_1; eauto. }
  apply Forall_cons in Har as [Ha Hrest].
  rewrite perform_panicked, perform_goroutines by done.
  split; [done|]. by apply Forall_insert.
Qed.

Lemma run_panicFree sched p :
  panicked p = None -> Forall panicFree (goroutines p) ->
  panicked (run sched p) = None /\ Forall panicFree (goroutines (run sched p)).
Proof.
  revert p. induction sched as [|k sched IH]; intros p Hp Hg; [done|].
  unfold run in *. simpl.
  destruct (step_panicFree p k Hp Hg) as [Hp' Hg']. by apply IH.
Qed.

(** Program order: what worker [j] has performed, followed by what it has
    still to do, is its original list of actions. *)
Lemma step_program_order p k j :
  actionsOf j (history (step p k)) ++ default [] (goroutines (step p k) !! j)
  = actionsOf j (history p) ++ default [] (goroutines p !! j).
Proof.
  destruct (step_cases p k) as [->|(a & rest & _ & Hk & ->)]; [done|].
  rewrite perform_goroutines, perform_history. unfold actionsOf.
  rewrite filter_app, fmap_app.
  destruct (decide (k = j)) as [->|Hne].
  - rewrite list_lookup_insert_eq by (by eapply lookup_lt_Some).
    rewrite Hk, filter_cons_True by done. simpl.
    by rewrite <- app_assoc.
  - rewrite list_lookup_insert_ne by done.
    rewrite filter_cons_False by done. simpl. by rewrite app_nil_r.
Qed.

Lemma run_program_order sched gs j :
  let p := run sched (spawn gs) in
  actionsOf j (history p) ++ default [] (goroutines p !! j)
  = default [] (gs !! j).
Proof.
  simpl. change (default [] (gs !! j))
    with (actionsOf j (history (spawn gs)) ++ default [] (goroutines (spawn gs) !! j)).
  generalize (spawn gs) as p. induction sched as [|k sched IH]; intros p; [done|].
  unfold run in *. simpl. rewrite IH. apply step_program_order.
Qed.

Lemma step_length p k : length (goroutines (step p k)) = length (goroutines p).
Proof.
  destruct (step_cases p k) as [->|(a & rest & _ & Hk & ->)]; [done|].
  by rewrite perform_goroutines, length_insert.
Qed.

Lemma run_length sched p : length (goroutines (run sched p)) = length (goroutines p).
Proof.
  revert p. induction sched as [|k sched IH]; intros p; [done|].
  unfold run in *. simpl. rewrite IH. apply step_length.
Qed.

Lemma run_app s1 s2 p : run (s1 ++ s2) p = run s2 (run s1 p).
Proof. unfold run. apply fold_left_app. Qed.

(** Picking worker [k] as many times as it has actions left runs it to its
    end and touches no other worker. *)
Lemma run_to_end k g p :
  panicked p = None -> goroutines p !! k = Some g -> panicFree g ->
  panicked (run (replicate (length g) k) p) = None /\
  goroutines (run (replicate (length g) k) p) = <[k := []]> (goroutines p).
Proof.
  revert p. induction g as [|a g IH]; intros p Hp Hk Hg.
  - simpl. split; [done|]. by rewrite list_insert_id.
  - apply Forall_cons in Hg as [Ha Hg]. simpl. unfold run. simpl.
    fold (run (replicate (length g) k) (step p k)).
    assert (step p k = perform k a g p) as ->.
    { unfold step. by rewrite Hp, Hk. }
    destruct (IH (perform k a g p)) as [IH1 IH2].
    + by rewrite perform_panicked.
    + rewrite perform_goroutines. apply list_lookup_insert_eq.
      by eapply lookup_lt_Some.
    + done.
    + split; [done|]. rewrite IH2, perform_goroutines.
      by rewrite list_insert_insert_eq.
Qed.

Lemma run_sequentialFrom (done_ gs : list (list Action)) p :
  panicked p = None ->
  goroutines p = done_ ++ gs ->
  Forall (fun g => g = []) done_ ->
  Forall panicFree gs ->
  panicked (run (sequentialFrom (length done_) gs) p) = None /\
  joined (run (sequentialFrom (length done_) gs) p) = true.
Proof.
  revert done_ p. induction gs as [|g gs IH]; intros done_ p Hp Hgs Hd Hf.
  - simpl. split; [done|]. unfold joined. rewrite Hgs, app_nil_r.
    apply Is_true_true, forallb_True.
    eapply Forall_impl; [exact Hd|]. by intros ? ->.
  - apply Forall_cons in Hf as [Hg Hf]. simpl. rewrite run_app.
    destruct (run_to_end (length done_) g p) as [Hp' Hg'].
    + done.
    + rewrite Hgs. by rewrite list_lookup_middle.
    + done.
    + replace (S (length done_)) with (length (done_ ++ [[]]))
        by (rewrite List.length_app; simpl; lia).
      apply IH.
      * done.
      * rewrite Hg', Hgs. rewrite <- app_assoc. simpl.
        replace (length done_) with (length done_ + 0)%nat at 1 by lia.
        by rewrite insert_app_r.
      * apply Forall_app. split; [done|]. by constructor.
      * done.
Qed.

(** The sequential schedule joins every worker. *)
Lemma run_sequential gs :
  Forall panicFree gs ->
  panicked (run (sequential gs) (spawn gs)) = None /\
  joined (run (sequential gs) (spawn gs)) = true.
Proof. intros Hf. by apply (run_sequentialFrom [] gs (spawn gs)). Qed.

(** A pool of workers that end in a panic cannot join without the process
    having panicked. *)
Lemma step_endsInPanic p k :
  (panicked p = None -> Forall endsInPanic (goroutines p)) ->
  panicked (step p k) = None -> Forall endsInPanic (goroutines (step p k)).
Proof.
  intros Hinv.
  destruct (step_cases p k) as [->|(a & rest & Hp & Hk & ->)]; [done|].
  specialize (Hinv Hp). intros Hp'. rewrite perform_goroutines.
  apply Forall_insert; [done|].
  assert (endsInPanic (a :: rest)) as [e He] by (eapply Forall_lookup_1; eauto).
  destruct rest as [|b rest].
  - simpl in He. injection He as ->. done.
  - by exists e.
Qed.

Lemma run_endsInPanic sched p :
  (panicked p = None -> Forall endsInPanic (goroutines p)) ->
  panicked (run sched p) = None -> Forall endsInPanic (goroutines (run sched p)).
Proof.
  revert p. induction sched as [|k sched IH]; intros p Hinv; [done|].
  unfold run in *. simpl. apply IH. by apply step_endsInPanic.
Qed.

End PoolFacts.

(** ** The worker as a whole *)

Section FetchDataFacts.

Context `{W : World}.

Lemma fetchData_built url_ d keep reuse threadID numCalls :
  url_parse_error url_ = None ->
  fetchData url_ d keep reuse threadID numCalls
  = callLoop (requestTemplate url_ reuse) d keep threadID
             (Z.to_nat numCalls) 0 ""
      ++ [ADone].
Proof. intros H. unfold fetchData, NewRequest. by rewrite H. Qed.

Lemma fetchData_not_built url_ d keep reuse threadID numCalls e :
  url_parse_error url_ = Some e ->
  fetchData url_ d keep reuse threadID numCalls
  = [APrint (LRequestCreationFailed threadID e); APanic NilDereference].
Proof. intros H. unfold fetchData, NewRequest. by rewrite H. Qed.

Lemma seqZ_to_nat m n : seqZ m (Z.of_nat (Z.to_nat n)) = seqZ m n.
Proof.
  destruct (Z.le_gt_cases 0 n).
  - by rewrite Z2Nat.id.
  - rewrite !seqZ_nil; [done|lia|lia].
Qed.

Lemma fetchData_appends url_ d keep reuse threadID numCalls :
  url_parse_error url_ = None ->
  appendsOf (fetchData url_ d keep reuse threadID numCalls)
  = (fun j => responseTimeOf (roundTrip threadID j)) <$> seqZ 0 numCalls.
Proof.
  intros H. rewrite fetchData_built by done. unfold appendsOf.
  rewrite omap_app. fold (appendsOf (callLoop (requestTemplate url_ reuse) d keep
    threadID (Z.to_nat numCalls) 0 "")).
  rewrite callLoop_appends, seqZ_to_nat. simpl. by rewrite app_nil_r.
Qed.

Lemma fetchData_calls url_ d keep reuse threadID numCalls :
  url_parse_error url_ = None ->
  callsOf (fetchData url_ d keep reuse threadID numCalls)
  = (fun j => (threadID, j)) <$> seqZ 0 numCalls.
Proof.
  intros H. rewrite fetchData_built by done. unfold callsOf.
  rewrite omap_app. fold (callsOf (callLoop (requestTemplate url_ reuse) d keep
    threadID (Z.to_nat numCalls) 0 "")).
  rewrite callLoop_calls, seqZ_to_nat. simpl. by rewrite app_nil_r.
Qed.

Lemma fetchData_owed url_ d keep reuse threadID numCalls :
  url_parse_error url_ = None ->
  owed (fetchData url_ d keep reuse threadID numCalls) = Z.to_nat numCalls.
Proof.
  intros H. unfold owed. rewrite fetchData_appends by done.
  by rewrite length_fmap, length_seqZ.
Qed.

Lemma fetchData_panicFree url_ d keep reuse threadID numCalls :
  url_parse_error url_ = None ->
  panicFree (fetchData url_ d keep reuse threadID numCalls).
Proof.
  intros H. rewrite fetchData_built by done. apply Forall_app.
  split; [apply callLoop_no_panic|by repeat constructor].
Qed.

(** Iteration [i] of a worker whose request was built, with the actions
    before it and the rest of the loop after it. *)
Lemma fetchData_at url_ d keep reuse threadID numCalls i :
  url_parse_error url_ = None ->
  0 <= i < numCalls ->
  let request := requestTemplate url_ reuse in
  exists before status,
    fetchData url_ d keep reuse threadID numCalls
    = before
        ++ (iteration request d keep threadID status i).1
        ++ callLoop request d keep threadID (Z.to_nat (numCalls - i - 1)) (i + 1)
                    (iteration request d keep threadID status i).2
        ++ [ADone]
    /\ callsOf before = (fun j => (threadID, j)) <$> seqZ 0 i.
Proof.
  intros H Hi request. rewrite fetchData_built by done. fold request.
  exists (callLoop request d keep threadID (Z.to_nat i) 0 ""),
         (statusAfter request d keep threadID (Z.to_nat i) 0 "").
  split.
  - rewrite (callLoop_at request d keep threadID (Z.to_nat numCalls) (Z.to_nat i))
      by lia.
    rewrite Z2Nat.id by lia. rewrite <- !app_assoc.
    by replace (Z.to_nat numCalls - S (Z.to_nat i))%nat
      with (Z.to_nat (numCalls - i - 1)) by lia.
  - by rewrite callLoop_calls, Z2Nat.id by lia.
Qed.

End FetchDataFacts.

(** ** The engine *)

Section EngineFacts.

Context `{W : World}.

Lemma Zsum_to_nat (l : list Z) :
  Forall (fun z => 0 <= z) l -> Z.of_nat (sum_list_with Z.to_nat l) = Zsum l.
Proof.
  induction 1 as [|z l Hz _ IH]; [done|]. simpl. rewrite <- IH. lia.
Qed.

Lemma share_total (totalCalls_ numThreads_ : Z) :
  0 <= totalCalls_ -> 1 <= numThreads_ ->
  Zsum (share (totalCalls_ / numThreads_) (totalCalls_ mod numThreads_)
          <$> seqZ 0 numThreads_) = totalCalls_.
Proof.
  intros Ht Hn.
  pose proof (Z.mod_pos_bound totalCalls_ numThreads_ ltac:(lia)).
  pose proof (Z.div_mod totalCalls_ numThreads_ ltac:(lia)).
  rewrite <- (Z2Nat.id numThreads_) at 3 by lia.
  rewrite Zsum_share by lia. rewrite Z2Nat.id by lia. lia.
Qed.

Lemma share_nonneg base remainder i : 0 <= base -> 0 <= share base remainder i.
Proof. unfold share. case_match; lia. Qed.

(** The goroutines of a run within the partition's precondition. *)
Lemma launch_share (c : Config) :
  0 <= totalCalls c <= GoInt.max_int ->
  1 <= numThreads c <= GoInt.max_int ->
  launch c
  = Some ((fun i =>
             fetchData (url c) (sleepTime c) (keepConnectsOpen c) (reuseConnects c) i
                       (share (totalCalls c / numThreads c)
                              (totalCalls c mod numThreads c) i))
            <$> seqZ 0 (numThreads c)).
Proof.
  intros Ht Hn. unfold launch. rewrite assignments_share by done. simpl.
  f_equal. by rewrite <- list_fmap_compose.
Qed.

Lemma launch_owed (c : Config) gs :
  0 <= totalCalls c <= GoInt.max_int ->
  1 <= numThreads c <= GoInt.max_int ->
  url_parse_error (url c) = None ->
  launch c = Some gs ->
  sum_list_with owed gs = Z.to_nat (totalCalls c) /\ Forall panicFree gs.
Proof.
  intros Ht Hn Hu. rewrite launch_share by done. intros [= <-].
  split.
  - assert (Z.to_nat (totalCalls c)
            = sum_list_with Z.to_nat
                (share (totalCalls c / numThreads c) (totalCalls c mod numThreads c)
                   <$> seqZ 0 (numThreads c))) as ->.
    { apply Nat2Z.inj. rewrite Zsum_to_nat.
      - rewrite share_total by lia. lia.
      - apply Forall_fmap, Forall_true. intros i. apply share_nonneg.
        apply Z.div_pos; lia. }
    generalize (seqZ 0 (numThreads c)). intros l.
    induction l as [|i l IH]; [done|]. rewrite !fmap_cons.
    cbn [sum_list_with]. by rewrite fetchData_owed, IH.
  - apply Forall_fmap, Forall_true. intros i. by apply fetchData_panicFree.
Qed.

(** What a returned run of the engine is made of. *)
Lemma engine_returned (c : Config) (sched : list nat) :
  exit (engine c sched) = Returned ->
  exists gs,
    launch c = Some gs /\
    panicked (run sched (spawn gs)) = None /\
    joined (run sched (spawn gs)) = true /\
    times (engine c sched) = responseTimes (run sched (spawn gs)) /\
    performed (engine c sched) = history (run sched (spawn gs)) /\
    printed (engine c sched)
    = stdout (run sched (spawn gs))
        ++ summary c (responseTimes (run sched (spawn gs))).
Proof.
  unfold engine. destruct (launch c) as [gs|]; [|done].
  destruct (panicked (run sched (spawn gs))) eqn:Hp; [done|].
  destruct (joined (run sched (spawn gs))) eqn:Hj; [|done].
  intros _. by exists gs.
Qed.

Lemma engine_sequential (c : Config) gs :
  launch c = Some gs -> Forall panicFree gs ->
  exit (engine c (sequential gs)) = Returned.
Proof.
  intros Hl Hf. unfold engine. rewrite Hl.
  destruct (run_sequential gs Hf) as [-> ->]. done.
Qed.

Lemma joined_lookup p k g :
  joined p = true -> goroutines p !! k = Some g -> g = [].
Proof.
  unfold joined. intros Hj%Is_true_true%forallb_True Hk.
  eapply Forall_lookup_1 in Hj; [|exact Hk]. by destruct g.
Qed.

(** Within the partition's precondition and with every request built, no
    schedule makes the process panic. *)
Lemma engine_no_panic (c : Config) :
  0 <= totalCalls c <= GoInt.max_int ->
  1 <= numThreads c <= GoInt.max_int ->
  url_parse_error (url c) = None ->
  forall sched, exit (engine c sched) = Returned \/ exit (engine c sched) = Waiting.
Proof.
  intros Ht Hn Hu sched.
  destruct (launch c) as [gs|] eqn:Hl; [|by rewrite launch_share in Hl].
  destruct (launch_owed c gs Ht Hn Hu Hl) as [_ Hfree].
  unfold engine. rewrite Hl.
  destruct (run_panicFree sched (spawn gs) eq_refl Hfree) as [-> _].
  destruct (joined _); auto.
Qed.

Lemma engine_times_length (c : Config) :
  0 <= totalCalls c <= GoInt.max_int ->
  1 <= numThreads c <= GoInt.max_int ->
  url_parse_error (url c) = None ->
  forall sched,
    exit (engine c sched) = Returned ->
    length (times (engine c sched)) = Z.to_nat (totalCalls c).
Proof.
  intros Ht Hn Hu sched (gs & Hl & _ & Hj & -> & _)%engine_returned.
  destruct (launch_owed c gs Ht Hn Hu Hl) as [Hsum _].
  pose proof (run_owed sched (spawn gs)) as Ho.
  rewrite (joined_owed _ Hj) in Ho. simpl in Ho. lia.
Qed.

Lemma engine_can_return (c : Config) :
  0 <= totalCalls c <= GoInt.max_int ->
  1 <= numThreads c <= GoInt.max_int ->
  url_parse_error (url c) = None ->
  exists sched, exit (engine c sched) = Returned.
Proof.
  intros Ht Hn Hu.
  destruct (launch c) as [gs|] eqn:Hl; [|by rewrite launch_share in Hl].
  destruct (launch_owed c gs Ht Hn Hu Hl) as [_ Hfree].
  exists (sequential gs). by apply engine_sequential.
Qed.

(** In a returned run worker [k] has performed its whole list of actions. *)
Lemma engine_worker_actions (c : Config) sched ws (k : nat) threadID numCalls :
  exit (engine c sched) = Returned ->
  assignments (totalCalls c) (numThreads c) = Some ws ->
  ws !! k = Some (threadID, numCalls) ->
  actionsOf k (performed (engine c sched))
  = fetchData (url c) (sleepTime c) (keepConnectsOpen c) (reuseConnects c)
              threadID numCalls.
Proof.
  intros (gs & Hl & _ & Hj & _ & -> & _)%engine_returned Hws Hk.
  pose proof (run_program_order sched gs k) as Hpo. simpl in Hpo.
  assert (gs !! k = Some (fetchData (url c) (sleepTime c) (keepConnectsOpen c)
                            (reuseConnects c) threadID numCalls)) as Hg.
  { unfold launch in Hl. rewrite Hws in Hl. simpl in Hl.
    injection Hl as <-. by rewrite list_lookup_fmap, Hk. }
  destruct (goroutines (run sched (spawn gs)) !! k) as [g|] eqn:Hgk.
  - rewrite (joined_lookup _ _ _ Hj Hgk) in Hpo. simpl in Hpo.
    by rewrite app_nil_r, Hg in Hpo.
  - apply lookup_ge_None in Hgk. rewrite run_length in Hgk. simpl in Hgk.
    apply lookup_lt_Some in Hg. lia.
Qed.

End EngineFacts.

(** * The claims *)

(** C2. For every run with [totalCalls >= 0] and [numThreads >= 1] in which
    every worker builds its request (no worker-launch failure): the process
    does not panic under any schedule; whenever all workers have joined
    and the run has returned, the length of the shared [responseTimes]
    equals [totalCalls]; each worker has appended exactly the elapsed times
    of its assigned calls, one per call, whatever the calls returned; and a
    schedule under which the run returns exists. *)
Theorem responseTimes_length `{W : World} (c : Config) :
  0 <= totalCalls c <= GoInt.max_int ->
  1 <= numThreads c <= GoInt.max_int ->
  url_parse_error (url c) = None ->
  (forall sched, exit (engine c sched) = Returned \/ exit (engine c sched) = Waiting) /\
  (forall sched,
     exit (engine c sched) = Returned ->
     length (times (engine c sched)) = Z.to_nat (totalCalls c)) /\
  (forall sched ws (k : nat) threadID numCalls,
     exit (engine c sched) = Returned ->
     assignments (totalCalls c) (numThreads c) = Some ws ->
     ws !! k = Some (threadID, numCalls) ->
     appendsOf (actionsOf k (performed (engine c sched)))
     = (fun j => responseTimeOf (roundTrip threadID j)) <$> seqZ 0 numCalls) /\
  (exists sched, exit (engine c sched) = Returned).
Proof.
  intros Ht Hn Hu.
  split; [by apply engine_no_panic|].
  split; [by apply engine_times_length|].
  split; [|by apply engine_can_return].
  intros sched ws k threadID numCalls Hr Hws Hk.
  rewrite (engine_worker_actions c sched ws k threadID numCalls) by done.
  by apply fetchData_appends.
Qed.

Lemma responseTimes_length_witness :
  exit (engine sample_config sample_schedule) = Returned /\
  length (times (engine sample_config sample_schedule)) = 5%nat.
Proof.
  assert (exit (engine sample_config sample_schedule) = Returned) as Hr
    by (vm_compute; reflexivity).
  split; [exact Hr|].
  refine (proj1 (proj2 (responseTimes_length sample_config _ _ _)) sample_schedule Hr).
  - vm_compute. split; discriminate.
  - vm_compute. split; discriminate.
  - vm_compute. reflexivity.
Defined.

(** C3, as the claim states it, fails: on [-totalCalls 0] the run returns
    with an empty [responseTimes] and the average it prints is not a
    number. *)
Lemma zero_calls_average_undefined :
  let r := main ["api-tester"; "http://localhost:9999"; "-totalCalls"; "0"]
                (seq 0 12) in
  exit r = Returned /\ times r = [] /\
  ~ (forall a, LAverageResponseTime a ∈ printed r -> PrimFloat.is_nan a = false).
Proof.
  assert (printed (main ["api-tester"; "http://localhost:9999"; "-totalCalls"; "0"]
                        (seq 0 12))
          = [LTotalTime (time.Seconds 40000000);
             LAverageResponseTime PrimFloat.nan;
             LRequestsPerSecond PrimFloat.zero;
             LFinished]) as Hp by (vm_compute; reflexivity).
  split; [vm_compute; reflexivity|]. split; [vm_compute; reflexivity|].
  intros H. specialize (H PrimFloat.nan). rewrite Hp in H.
  assert (PrimFloat.is_nan PrimFloat.nan = false) as Hn.
  { apply H. apply list_elem_of_further, list_elem_of_here. }
  vm_compute in Hn. discriminate.
Qed.

(** C3, amended. For a run with [totalCalls = 0] (and [numThreads >= 1],
    every request built) no schedule makes the process panic: the average
    is a [float64] division, which raises no division fault.  When the run
    returns, [responseTimes] is empty and the summary it prints ends the
    output, with the average response time [0 / 0], which is not a number:
    no fallback value is substituted. *)
Theorem zero_calls_average `{W : World} (c : Config) :
  totalCalls c = 0 ->
  1 <= numThreads c <= GoInt.max_int ->
  url_parse_error (url c) = None ->
  (forall sched, exit (engine c sched) = Returned \/ exit (engine c sched) = Waiting) /\
  (exists sched, exit (engine c sched) = Returned) /\
  (forall sched,
     exit (engine c sched) = Returned ->
     times (engine c sched) = [] /\
     exists before,
       printed (engine c sched)
       = before ++ [LTotalTime totalTime;
                    LAverageResponseTime (PrimFloat.div PrimFloat.zero PrimFloat.zero);
                    LRequestsPerSecond (requestsPerSecond c);
                    LFinished]) /\
  PrimFloat.is_nan (PrimFloat.div PrimFloat.zero PrimFloat.zero) = true.
Proof.
  intros Hz Hn Hu.
  assert (0 <= totalCalls c <= GoInt.max_int) as Ht
    by (rewrite Hz; unfold GoInt.max_int; lia).
  split; [by apply engine_no_panic|].
  split; [by apply engine_can_return|].
  split; [|reflexivity].
  intros sched Hr.
  pose proof (engine_times_length c Ht Hn Hu sched Hr) as Hlen.
  rewrite Hz in Hlen.
  destruct (engine_returned c sched Hr) as (gs & _ & _ & _ & Ht' & _ & Hp).
  assert (times (engine c sched) = []) as Hnil
    by (by destruct (times (engine c sched))).
  split; [done|].
  exists (stdout (run sched (spawn gs))). rewrite Hp, <- Ht', Hnil. done.
Qed.

Lemma zero_calls_average_witness :
  let c := set_totalCalls 0 sample_config in
  times (engine c [0; 1]%nat) = [] /\
  exists before,
    printed (engine c [0; 1]%nat)
    = before ++ [LTotalTime totalTime;
                 LAverageResponseTime (PrimFloat.div PrimFloat.zero PrimFloat.zero);
                 LRequestsPerSecond (requestsPerSecond c);
                 LFinished].
Proof.
  refine (proj1 (proj2 (proj2 (zero_calls_average
            (set_totalCalls 0 sample_config) _ _ _))) [0; 1]%nat _).
  - reflexivity.
  - vm_compute. split; discriminate.
  - vm_compute. reflexivity.
  - vm_compute. reflexivity.
Defined.

(** C4 on the code. When [http.NewRequest] fails, a worker prints the
    failure once and then reads [request.Header] of the nil request: its
    actions are the print followed by a nil-dereference panic, and it makes
    no call.  As soon as the first worker has run these two actions the
    process has panicked with only that line printed, and under no schedule
    does the run return. *)
Theorem request_creation_failure_panics `{W : World} (c : Config) (e : error) :
  url_parse_error (url c) = Some e ->
  0 <= totalCalls c <= GoInt.max_int ->
  1 <= numThreads c <= GoInt.max_int ->
  (forall threadID numCalls,
     fetchData (url c) (sleepTime c) (keepConnectsOpen c) (reuseConnects c)
               threadID numCalls
     = [APrint (LRequestCreationFailed threadID e); APanic NilDereference]) /\
  exit (engine c [0; 0]%nat) = Panicking NilDereference /\
  printed (engine c [0; 0]%nat) = [LRequestCreationFailed 0 e] /\
  times (engine c [0; 0]%nat) = [] /\
  forall sched, exit (engine c sched) <> Returned.
Proof.
  intros Hu Ht Hn.
  assert (forall threadID numCalls,
     fetchData (url c) (sleepTime c) (keepConnectsOpen c) (reuseConnects c)
               threadID numCalls
     = [APrint (LRequestCreationFailed threadID e); APanic NilDereference]) as Hf
    by (intros; by apply fetchData_not_built).
  split; [exact Hf|].
  assert (exists gs,
            launch c
            = Some ([APrint (LRequestCreationFailed 0 e); APanic NilDereference] :: gs)
            /\ Forall endsInPanic gs) as (gs & Hl & Hgs).
  { rewrite launch_share by done. rewrite (seqZ_cons 0) by lia.
    rewrite fmap_cons, Hf. eexists. split; [reflexivity|].
    apply Forall_fmap, Forall_true. intros i. unfold compose. rewrite Hf.
    by exists NilDereference. }
  split; [|split; [|split]]; try (unfold engine; rewrite Hl; done).
  intros sched (gs' & Hl' & Hp & Hj & _)%engine_returned.
  rewrite Hl in Hl'. injection Hl' as <-.
  assert (Forall endsInPanic
            ([APrint (LRequestCreationFailed 0 e); APanic NilDereference] :: gs))
    as Hinit by (constructor; [by exists NilDereference|done]).
  pose proof (run_endsInPanic sched (spawn _) (fun _ => Hinit) Hp) as Hall.
  pose proof (run_length sched (spawn
    ([APrint (LRequestCreationFailed 0 e); APanic NilDereference] :: gs))) as Hlen.
  destruct (goroutines (run sched (spawn
    ([APrint (LRequestCreationFailed 0 e); APanic NilDereference] :: gs))))
    as [|g rest] eqn:Hg; [done|].
  apply Forall_cons in Hall as [[e' He'] _].
  unfold joined in Hj. rewrite Hg in Hj. simpl in Hj.
  apply andb_true_iff in Hj as [Hfin _]. by destruct g.
Qed.

Lemma request_creation_failure_panics_witness :
  let c := set_url ("http://local" ++ String "127"%char "host")%string sample_config in
  exit (engine c [0; 0]%nat) = Panicking NilDereference.
Proof.
  refine (proj1 (proj2 (request_creation_failure_panics
     (set_url ("http://local" ++ String "127"%char "host")%string sample_config)
     "net/url: invalid control character in URL"%string _ _ _))).
  - vm_compute. reflexivity.
  - vm_compute. split; discriminate.
  - vm_compute. split; discriminate.
Defined.

(** A call that returns no response never aborts the worker. For every
    worker whose request was built: it makes exactly its assigned calls,
    each index once and in order (no retry), and appends the elapsed time
    of every one of them; it contains no panic and ends by signalling
    completion; and at every assigned call [i] that fails without a
    response (an error [e]) its actions are the call, then under the lock
    the failure line with the measured time and the append of that same
    time, then the sleep, followed by the rest of the loop from [i + 1]. *)
Theorem failed_call_does_not_abort `{W : World}
    (url_ : string) (d : time.Duration) (keep reuse : bool) (threadID numCalls : Z) :
  url_parse_error url_ = None ->
  let request := requestTemplate url_ reuse in
  let acts := fetchData url_ d keep reuse threadID numCalls in
  callsOf acts = (fun j => (threadID, j)) <$> seqZ 0 numCalls /\
  appendsOf acts
  = (fun j => responseTimeOf (roundTrip threadID j)) <$> seqZ 0 numCalls /\
  Forall (fun a => isPanic a = false) acts /\
  last acts = Some ADone /\
  forall i e,
    0 <= i < numCalls ->
    resp (roundTrip threadID i) = None ->
    do_err (roundTrip threadID i) = Some e ->
    let responseTime := responseTimeOf (roundTrip threadID i) in
    exists before status,
      acts
      = before
          ++ [ADo request threadID i;
              ALogAppend (LRequestFailed threadID i e responseTime) responseTime;
              ASleep d]
          ++ callLoop request d keep threadID (Z.to_nat (numCalls - i - 1))
                      (i + 1) status
          ++ [ADone]
      /\ callsOf before = (fun j => (threadID, j)) <$> seqZ 0 i.
Proof.
  intros Hu request acts.
  split; [by apply fetchData_calls|].
  split; [by apply fetchData_appends|].
  split; [by apply fetchData_panicFree|].
  split.
  { unfold acts. rewrite fetchData_built by done. apply last_snoc. }
  intros i e Hi Hresp Herr responseTime.
  destruct (fetchData_at url_ d keep reuse threadID numCalls i Hu Hi)
    as (before & status & Hacts & Hbefore).
  rewrite iteration_no_response in Hacts by done. simpl in Hacts.
  rewrite Herr in Hacts.
  by exists before, status.
Qed.

(** The call of index 2 of every worker of [sample_world] fails. *)
Lemma failed_call_does_not_abort_witness :
  exists before status,
    fetchData "http://localhost:9999" 0 false false 1 4
    = before
        ++ [ADo (requestTemplate "http://localhost:9999" false) 1 2;
            ALogAppend (LRequestFailed 1 2 "connection refused"
                                       (responseTimeOf (roundTrip 1 2)))
                       (responseTimeOf (roundTrip 1 2));
            ASleep 0]
        ++ callLoop (requestTemplate "http://localhost:9999" false) 0 false 1
                    (Z.to_nat (4 - 2 - 1)) (2 + 1) status
        ++ [ADone]
    /\ callsOf before = (fun j => (1, j)) <$> seqZ 0 2.
Proof.
  assert (url_parse_error "http://localhost:9999" = None) as Hu
    by (vm_compute; reflexivity).
  assert (resp (roundTrip 1 2) = None) as Hr by (vm_compute; reflexivity).
  assert (do_err (roundTrip 1 2) = Some "connection refused"%string) as He
    by (vm_compute; reflexivity).
  exact (proj2 (proj2 (proj2 (proj2
           (failed_call_does_not_abort "http://localhost:9999" 0 false false 1 4 Hu))))
           2 "connection refused"%string ltac:(lia) Hr He).
Defined.

(** C7. For every worker whose request was built and every assigned call
    [i] whose response is non-nil: when [keepConnectsOpen] is false the
    worker's actions at [i] are the call, the drain of the body to
    [io.Discard], the close of the body, and only then the locked log and
    append, the sleep and the rest of the loop; when [keepConnectsOpen] is
    true the worker never drains or closes any body, and its actions at [i]
    are the call followed at once by the locked log and append. *)
Theorem body_drained_unless_kept_open `{W : World}
    (url_ : string) (d : time.Duration) (keep reuse : bool) (threadID numCalls : Z) :
  url_parse_error url_ = None ->
  let request := requestTemplate url_ reuse in
  let acts := fetchData url_ d keep reuse threadID numCalls in
  (keep = true -> Forall (fun a => isBodyRead a = false) acts) /\
  forall i rp,
    0 <= i < numCalls ->
    resp (roundTrip threadID i) = Some rp ->
    let responseTime := responseTimeOf (roundTrip threadID i) in
    exists before line status,
      callsOf before = (fun j => (threadID, j)) <$> seqZ 0 i /\
      acts
      = before
          ++ ADo request threadID i
          :: (if keep then [] else [ADrain threadID i; AClose threadID i])
          ++ [ALogAppend line responseTime; ASleep d]
          ++ callLoop request d keep threadID (Z.to_nat (numCalls - i - 1))
                      (i + 1) status
          ++ [ADone].
Proof.
  intros Hu request acts. split.
  { intros Hk. unfold acts. rewrite fetchData_built by done.
    apply Forall_app. split; [by apply callLoop_no_body_read|].
    by repeat constructor. }
  intros i rp Hi Hresp responseTime.
  destruct (fetchData_at url_ d keep reuse threadID numCalls i Hu Hi)
    as (before & status & Hacts & Hbefore).
  destruct keep.
  - rewrite (iteration_kept_open _ _ _ _ _ _ rp) in Hacts by done.
    simpl in Hacts. eexists before, _, _.
    split; [exact Hbefore|exact Hacts].
  - rewrite (iteration_drained _ _ _ _ _ _ rp) in Hacts by done.
    simpl in Hacts. eexists before, _, _.
    split; [exact Hbefore|exact Hacts].
Qed.

Lemma body_drained_unless_kept_open_witness :
  Forall (fun a => isBodyRead a = false)
         (fetchData "http://localhost:9999" 0 true false 0 3) /\
  exists before line status,
    fetchData "http://localhost:9999" 0 false false 0 3
    = before
        ++ ADo (requestTemplate "http://localhost:9999" false) 0 1
        :: [ADrain 0 1; AClose 0 1]
        ++ [ALogAppend line (responseTimeOf (roundTrip 0 1)); ASleep 0]
        ++ callLoop (requestTemplate "http://localhost:9999" false) 0 false 0
                    (Z.to_nat (3 - 1 - 1)) (1 + 1) status
        ++ [ADone].
Proof.
  split.
  - refine (proj1 (body_drained_unless_kept_open
                     "http://localhost:9999" 0 true false 0 3 _) _).
    + vm_compute. reflexivity.
    + reflexivity.
  - assert (url_parse_error "http://localhost:9999" = None) as Hu
      by (vm_compute; reflexivity).
    assert (resp (roundTrip 0 1) = Some (mkResponse "200 OK")) as Hr
      by (vm_compute; reflexivity).
    destruct (proj2 (body_drained_unless_kept_open
                       "http://localhost:9999" 0 false false 0 3 Hu)
                    1 (mkResponse "200 OK") ltac:(lia) Hr)
      as (before & line & status & _ & H).
    exists before, line, status. exact H.
Defined.

(** ** Argument resolution and the Connection header *)

Lemma requestTemplate_Connection (url_ : string) (reuse : bool) :
  Header (requestTemplate url_ reuse) !! "Connection"%string
  = Some [if reuse then "keep-alive" else "close"]%string.
Proof.
  unfold requestTemplate, Header_Add. simpl.
  rewrite lookup_insert_eq, lookup_empty. by destruct reuse.
Qed.

(** The flag loop leaves [connectTimeOut] alone unless it meets the
    [-connectTimeOut] flag. *)
Lemma parseFlags_connectTimeOut `{W : World} (n : nat) :
  forall rest c0 c,
    (length rest <= n)%nat ->
    parseFlags c0 rest = Resolved c ->
    ~ In "-connectTimeOut"%string rest ->
    connectTimeOut c = connectTimeOut c0.
Proof.
  induction n as [|n IH]; intros rest c0 c Hlen Hp Hnot.
  - destruct rest; [|simpl in Hlen; lia]. simpl in Hp. by simplify_eq.
  - destruct rest as [|a tl]; [simpl in Hp; by simplify_eq|].
    simpl in Hlen. simpl in Hp.
    assert (forall c1 tl',
              (length tl' <= n)%nat -> (forall x, In x tl' -> In x tl) ->
              connectTimeOut c1 = connectTimeOut c0 ->
              parseFlags c1 tl' = Resolved c ->
              connectTimeOut c = connectTimeOut c0) as Hnext.
    { intros c1 tl' Hl Hin Hc1 Hp1. rewrite <- Hc1.
      apply (IH tl' c1 c Hl Hp1). intros Hx. apply Hnot. right. by apply Hin. }
    destruct (String.eqb_spec a "-connectTimeOut") as [->|_].
    { exfalso. apply Hnot. by left. }
    repeat case_match; simplify_eq;
      match goal with
      | Hq : parseFlags ?c1 ?tl' = Resolved _ |- _ =>
          apply (Hnext c1 tl');
          [simpl in *; lia|intros x Hx; simpl; auto|reflexivity|exact Hq]
      end.
Qed.

(** A flag loop that resolves a list of arguments resolves it in the same
    way when more arguments follow. *)
Lemma parseFlags_app `{W : World} (n : nat) :
  forall rest more c0 c1,
    (length rest <= n)%nat ->
    parseFlags c0 rest = Resolved c1 ->
    parseFlags c0 (rest ++ more) = parseFlags c1 more.
Proof.
  induction n as [|n IH]; intros rest more c0 c1 Hlen Hp.
  - destruct rest; [|simpl in Hlen; lia]. simpl in Hp. by simplify_eq.
  - destruct rest as [|a tl]; [simpl in Hp; by simplify_eq|].
    simpl in Hlen. simpl in Hp. simpl.
    repeat (match type of Hp with
            | context [if ?b then _ else _] => destruct b eqn:?
            | context [match ?l with [] => _ | _ :: _ => _ end] =>
                destruct l; simpl in *
            | context [match ?o with Some _ => _ | None => _ end] =>
                destruct o eqn:?; simpl in *
            end; try discriminate);
      apply IH; first [exact Hp | lia].
Qed.

Lemma isHelp_Atoi (v : string) (n : Z) : strconv.Atoi v = Some n -> isHelp v = false.
Proof.
  intros Ha. unfold isHelp.
  destruct (String.eqb_spec v "-?") as [->|_]; [by vm_compute in Ha|].
  destruct (String.eqb_spec v "--help") as [->|_]; [by vm_compute in Ha|].
  done.
Qed.

Lemma isHelp_http (u : string) : String.prefix "http" u = true -> isHelp u = false.
Proof.
  intros Hu. unfold isHelp.
  destruct (String.eqb_spec u "-?") as [->|_]; [by vm_compute in Hu|].
  destruct (String.eqb_spec u "--help") as [->|_]; [by vm_compute in Hu|].
  done.
Qed.

(** With no [-connectTimeOut] flag the resolved connect timeout is
    30000 ms, not 20000 ms. *)
Lemma connectTimeOut_default_not_20000 :
  exists c,
    resolve ["api-tester"; "http://localhost:9999"]%string = Resolved c /\
    connectTimeOut c = 30000 * time.Millisecond /\
    connectTimeOut c <> 20000 * time.Millisecond.
Proof. eexists. split; [reflexivity|]. split; [reflexivity|discriminate]. Qed.

(** C6 on the code. The usage text tells the user that the default of
    [-connectTimeOut] is 20000, but whenever the flag is not among the
    arguments the resolved connect timeout is 3 times the default of
    [requestTimeOut], which is 30000 ms and not 20000 ms, whatever the
    other flags are; in particular overriding [-requestTimeOut] alone sets
    the request timeout to the given value and leaves the connect timeout
    at 30000 ms. *)
Theorem connectTimeOut_default `{W : World} :
  "  -connectTimeOut [value] - HTTP request timeout in milliseconds. Default is 20000."%string
    ∈ printHelp /\
  (forall args c,
     resolve args = Resolved c ->
     ~ In "-connectTimeOut"%string args ->
     connectTimeOut c = GoInt.mul (requestTimeOut defaults) 3 /\
     connectTimeOut c = 30000 * time.Millisecond /\
     connectTimeOut c <> 20000 * time.Millisecond /\
     IdleConnTimeout (ClientTransport (newClient c)) = 30000 * time.Millisecond) /\
  (forall prog u v d,
     String.prefix "http" u = true ->
     isHelp v = false ->
     ParseDuration (v ++ "ms")%string = Some d ->
     exists c,
       resolve [prog; u; "-requestTimeOut"%string; v] = Resolved c /\
       requestTimeOut c = d /\
       connectTimeOut c = 30000 * time.Millisecond).
Proof.
  split; [|split].
  - unfold printHelp. do 9 apply list_elem_of_further. apply list_elem_of_here.
  - intros args c Hr Hnot.
    assert (connectTimeOut c = connectTimeOut defaults) as Hc.
    { unfold resolve in Hr. destruct args as [|prog [|a1 rest]]; [done|done|].
      destruct (existsb isHelp (a1 :: rest)); [done|].
      destruct (String.prefix "http" a1); [|done].
      rewrite (parseFlags_connectTimeOut (length rest) rest _ c (le_n _) Hr); [done|].
      intros Hin. apply Hnot. by do 2 right. }
    simpl. rewrite Hc. by repeat split.
  - intros prog u v d Hu Hv Hd.
    exists (set_requestTimeOut d (set_url u defaults)).
    split; [|done]. unfold resolve.
    assert (existsb isHelp [u; "-requestTimeOut"%string; v] = false) as ->.
    { simpl. by rewrite isHelp_http, Hv. }
    rewrite Hu. simpl. unfold parseMillis. by rewrite Hd.
Qed.

Lemma connectTimeOut_default_witness :
  exists c,
    resolve ["api-tester"; "http://localhost:9999"; "-requestTimeOut"; "5000"]%string
    = Resolved c /\
    requestTimeOut c = 5000 * time.Millisecond /\
    connectTimeOut c = 30000 * time.Millisecond.
Proof.
  refine (proj2 (proj2 connectTimeOut_default) "api-tester"%string
            "http://localhost:9999"%string "5000"%string
            (5000 * time.Millisecond) _ _ _); vm_compute; reflexivity.
Defined.

(** C10. [main] does not validate [-numThreads]: any value [strconv.Atoi]
    accepts, zero and negative ones included, becomes [numThreads] as it
    is; whenever the arguments resolve to [numThreads = 0] no goroutine is
    launched and the run ends, under every schedule, in the
    division-by-zero panic of [totalCalls / numThreads], having printed
    nothing and performed no worker action; and that is what happens when
    [-numThreads] with a value that reads as 0 follows any arguments that
    resolve. *)
Theorem numThreads_zero_divides_by_zero `{W : World} :
  (forall prog u v n,
     String.prefix "http" u = true ->
     strconv.Atoi v = Some n ->
     resolve [prog; u; "-numThreads"%string; v]
     = Resolved (set_numThreads n (set_url u defaults))) /\
  (forall args c sched,
     resolve args = Resolved c ->
     numThreads c = 0 ->
     GoInt.quo (totalCalls c) (numThreads c) = None /\
     launch c = None /\
     main args sched = mkOutcome [] [] [] (Panicking DivideByZero)) /\
  (forall args c v sched,
     resolve args = Resolved c ->
     strconv.Atoi v = Some 0 ->
     resolve (args ++ ["-numThreads"%string; v]) = Resolved (set_numThreads 0 c) /\
     main (args ++ ["-numThreads"%string; v]) sched
     = mkOutcome [] [] [] (Panicking DivideByZero)).
Proof.
  assert (forall args c sched,
     resolve args = Resolved c ->
     numThreads c = 0 ->
     GoInt.quo (totalCalls c) (numThreads c) = None /\
     launch c = None /\
     main args sched = mkOutcome [] [] [] (Panicking DivideByZero)) as Hzero.
  { intros args c sched Hr Hz.
    assert (launch c = None) as Hl.
    { unfold launch, assignments, GoInt.quo. by rewrite Hz. }
    split; [by rewrite Hz|]. split; [done|].
    unfold main. rewrite Hr. unfold engine. by rewrite Hl. }
  split; [|split; [exact Hzero|]].
  - intros prog u v n Hu Hv. unfold resolve.
    assert (existsb isHelp [u; "-numThreads"%string; v] = false) as ->.
    { simpl. by rewrite isHelp_http, (isHelp_Atoi v n). }
    rewrite Hu. simpl. by rewrite Hv.
  - intros args c v sched Hr Hv.
    assert (resolve (args ++ ["-numThreads"%string; v])
            = Resolved (set_numThreads 0 c)) as Hr'.
    { unfold resolve in *. destruct args as [|prog [|a1 rest]]; [done|done|].
      cbn [app existsb] in *. rewrite existsb_app.
      destruct (isHelp a1 || existsb isHelp rest) eqn:Hh.
      { by rewrite orb_assoc, Hh in *. }
      rewrite orb_assoc, Hh. cbn [existsb orb].
      rewrite (isHelp_Atoi v 0 Hv). cbn [orb].
      change (isHelp "-numThreads") with false. cbn match.
      destruct (String.prefix "http" a1); [|done].
      rewrite (parseFlags_app (length rest) rest _ _ c (le_n _) Hr).
      simpl. by rewrite Hv. }
    split; [exact Hr'|]. by apply (Hzero _ (set_numThreads 0 c)).
Qed.

Lemma numThreads_zero_divides_by_zero_witness :
  main (["api-tester"; "http://localhost:9999"; "-totalCalls"; "100"]%string
          ++ ["-numThreads"; "0"]%string) sample_schedule
  = mkOutcome [] [] [] (Panicking DivideByZero).
Proof.
  refine (proj2 (proj2 (proj2 numThreads_zero_divides_by_zero)
            ["api-tester"; "http://localhost:9999"; "-totalCalls"; "100"]%string
            (set_totalCalls 100 (set_url "http://localhost:9999" defaults))
            "0"%string sample_schedule _ _)).
  - vm_compute. reflexivity.
  - vm_compute. reflexivity.
Defined.

(** * Further properties of the code *)

(** ** Argument resolution *)

Section ResolveFacts.

Context `{W : World}.

(** Arguments that resolve keep resolving the same way when arguments
    without a help flag follow them. *)
Lemma resolve_app (args more : list string) (c : Config) :
  resolve args = Resolved c ->
  existsb isHelp more = false ->
  resolve (args ++ more) = parseFlags c more.
Proof.
  intros Hr Hm. unfold resolve in *.
  destruct args as [|prog [|a1 rest]]; [done|done|].
  cbn [app existsb] in *. rewrite existsb_app, Hm, orb_false_r.
  destruct (isHelp a1 || existsb isHelp rest); [done|].
  destruct (String.prefix "http" a1); [|done].
  by apply (parseFlags_app (length rest)).
Qed.

Lemma isHelp_valueFlag (f : string) : f ∈ valueFlags -> isHelp f = false.
Proof.
  unfold valueFlags. rewrite !elem_of_cons, elem_of_nil.
  intros [->|[->|[->|[->|[->|[]]]]]]; reflexivity.
Qed.

Lemma engine_of_resolve (args : list string) (c : Config) sched :
  resolve args = Resolved c -> main args sched = engine c sched.
Proof. intros H. unfold main. by rewrite H. Qed.

End ResolveFacts.

(** X1. A help flag anywhere after the program name wins over everything
    else: whatever the other arguments are (a bad URL, a flag without its
    value, a bad number), [main] prints the usage and returns without
    running. *)
Theorem help_short_circuits `{W : World} (prog : string) (rest : list string)
    (sched : list nat) :
  (exists x, x ∈ rest /\ (x = "-?" \/ x = "--help")%string) ->
  main (prog :: rest) sched = mkOutcome [LUsage] [] [] Returned.
Proof.
  intros (x & Hx & Hh).
  assert (existsb isHelp rest = true) as He.
  { apply existsb_exists. exists x. split; [by apply list_elem_of_In|].
    by destruct Hh as [-> | ->]. }
  unfold main, resolve. destruct rest as [|a1 rest]; [done|]. by rewrite He.
Qed.

Lemma help_short_circuits_witness :
  main ["api-tester"; "ftp://nowhere"; "-totalCalls"; "--help"; "-numThreads"]%string
       sample_schedule
  = mkOutcome [LUsage] [] [] Returned.
Proof.
  apply help_short_circuits. exists "--help"%string.
  split; [|by right]. do 2 apply list_elem_of_further. apply list_elem_of_here.
Defined.

(** X2. Nothing runs without a URL that begins with [http]: when the
    first argument is missing or does not begin with [http], then under
    every schedule [main] returns without a panic, having printed the
    usage, launched nothing and measured nothing; and when moreover no
    argument is a help flag, the error line it prints for a bad URL shows
    the still empty [url] variable, not the offending argument. *)
Theorem nothing_runs_without_http_url `{W : World} (args : list string)
    (sched : list nat) :
  (forall u, args !! 1%nat = Some u -> String.prefix "http" u = false) ->
  exit (main args sched) = Returned /\
  times (main args sched) = [] /\
  performed (main args sched) = [] /\
  LUsage ∈ printed (main args sched) /\
  (forall prog a1 rest,
     args = prog :: a1 :: rest ->
     existsb isHelp (a1 :: rest) = false ->
     printed (main args sched) = [LBadURL ""; LUsage]).
Proof.
  intros Hu. unfold main, resolve.
  destruct args as [|prog [|a1 rest]].
  - do 3 (split; [done|]). split; [|intros; discriminate].
    apply list_elem_of_further, list_elem_of_here.
  - do 3 (split; [done|]). split; [|intros; discriminate].
    apply list_elem_of_further, list_elem_of_here.
  - rewrite (Hu a1 eq_refl).
    destruct (existsb isHelp (a1 :: rest)) eqn:Hh.
    + do 3 (split; [done|]). split; [apply list_elem_of_here|].
      intros ? ? ? [= _ <- <-] Hh'. congruence.
    + do 3 (split; [done|]). split; [|done].
      apply list_elem_of_further, list_elem_of_here.
Qed.

Lemma nothing_runs_without_http_url_witness :
  exit (main ["api-tester"; "localhost:8080"; "-numThreads"; "0"]%string
             sample_schedule) = Returned /\
  printed (main ["api-tester"; "localhost:8080"; "-numThreads"; "0"]%string
                sample_schedule) = [LBadURL ""; LUsage].
Proof.
  destruct (nothing_runs_without_http_url
              ["api-tester"; "localhost:8080"; "-numThreads"; "0"]%string
              sample_schedule) as (He & _ & _ & _ & Hp).
  - intros u [= <-]. reflexivity.
  - split; [exact He|]. by eapply Hp.
Defined.

(** X3. A value flag given as the last argument makes [main] read
    [os.Args] out of range: after any arguments that resolve, the run ends
    in an index-out-of-range panic before anything is printed or
    launched. *)
Theorem trailing_flag_panics `{W : World} (args : list string) (c : Config)
    (f : string) (sched : list nat) :
  resolve args = Resolved c ->
  f ∈ valueFlags ->
  main (args ++ [f]) sched = mkOutcome [] [] [] (Panicking IndexOutOfRange).
Proof.
  intros Hr Hf. unfold main.
  rewrite (resolve_app args [f] c Hr)
    by (simpl; by rewrite (isHelp_valueFlag f Hf)).
  revert Hf. unfold valueFlags. rewrite !elem_of_cons, elem_of_nil.
  intros [->|[->|[->|[->|[->|[]]]]]]; reflexivity.
Qed.

Lemma trailing_flag_panics_witness :
  main (["api-tester"; "http://localhost:9999"; "-reuseConnects"]%string
          ++ ["-sleepTime"%string]) sample_schedule
  = mkOutcome [] [] [] (Panicking IndexOutOfRange).
Proof.
  eapply trailing_flag_panics.
  - vm_compute. reflexivity.
  - unfold valueFlags. do 2 apply list_elem_of_further. apply list_elem_of_here.
Defined.

(** X4. A value that does not parse stops the program before it runs:
    after any arguments that resolve, [-totalCalls] or [-numThreads] with
    a value [strconv.Atoi] refuses, or a duration flag with a value
    [time.ParseDuration] refuses once [ms] is appended, makes [main] print
    the offending token with the usage and return. *)
Theorem bad_value_rejected `{W : World} (args : list string) (c : Config)
    (f v : string) (sched : list nat) :
  resolve args = Resolved c ->
  isHelp v = false ->
  (f ∈ ["-totalCalls"; "-numThreads"]%string /\ strconv.Atoi v = None) \/
  (f ∈ ["-sleepTime"; "-requestTimeOut"; "-connectTimeOut"]%string /\
   ParseDuration (v ++ "ms")%string = None) ->
  main (args ++ [f; v]) sched = mkOutcome [LBadInt v; LUsage] [] [] Returned.
Proof.
  intros Hr Hv Hf. unfold main.
  assert (isHelp f = false) as Hhf.
  { apply isHelp_valueFlag. unfold valueFlags.
    destruct Hf as [[Hf _]|[Hf _]]; revert Hf;
      rewrite !elem_of_cons, !elem_of_nil; intuition. }
  rewrite (resolve_app args [f; v] c Hr) by (simpl; by rewrite Hhf, Hv).
  destruct Hf as [[Hf Hn]|[Hf Hn]]; revert Hf;
    rewrite !elem_of_cons, !elem_of_nil;
    intros Hf; repeat (destruct Hf as [->|Hf]); try done;
    simpl; unfold parseMillis; by rewrite Hn.
Qed.

Lemma bad_value_rejected_witness :
  main (["api-tester"; "http://localhost:9999"]%string
          ++ ["-numThreads"; "twelve"]%string) sample_schedule
  = mkOutcome [LBadInt "twelve"; LUsage] [] [] Returned.
Proof.
  eapply bad_value_rejected.
  - vm_compute. reflexivity.
  - reflexivity.
  - left. split; [|reflexivity].
    apply list_elem_of_further, list_elem_of_here.
Defined.

(** X5. The last occurrence of a flag wins: after any arguments that
    resolve to a configuration, one more flag resolves to that
    configuration with just the flag's variable replaced, whatever earlier
    flags had set it to. *)
Theorem last_flag_wins `{W : World} (args : list string) (c : Config) :
  resolve args = Resolved c ->
  (forall v n,
     strconv.Atoi v = Some n ->
     resolve (args ++ ["-totalCalls"%string; v]) = Resolved (set_totalCalls n c) /\
     resolve (args ++ ["-numThreads"%string; v]) = Resolved (set_numThreads n c)) /\
  (forall v d,
     isHelp v = false ->
     ParseDuration (v ++ "ms")%string = Some d ->
     resolve (args ++ ["-sleepTime"%string; v]) = Resolved (set_sleepTime d c) /\
     resolve (args ++ ["-requestTimeOut"%string; v])
     = Resolved (set_requestTimeOut d c) /\
     resolve (args ++ ["-connectTimeOut"%string; v])
     = Resolved (set_connectTimeOut d c)) /\
  resolve (args ++ ["-reuseConnects"%string]) = Resolved (set_reuseConnects true c) /\
  resolve (args ++ ["-keepConnectsOpen"%string])
  = Resolved (set_keepConnectsOpen true c).
Proof.
  intros Hr. split; [|split; [|split]].
  - intros v n Hv. pose proof (isHelp_Atoi v n Hv) as Hh.
    split; rewrite (resolve_app args _ c Hr) by (simpl; by rewrite Hh);
      simpl; by rewrite Hv.
  - intros v d Hh Hd.
    split; [|split]; rewrite (resolve_app args _ c Hr) by (simpl; by rewrite Hh);
      simpl; unfold parseMillis; by rewrite Hd.
  - by rewrite (resolve_app args _ c Hr).
  - by rewrite (resolve_app args _ c Hr).
Qed.

Lemma last_flag_wins_witness :
  resolve (["api-tester"; "http://localhost:9999"; "-totalCalls"; "7";
            "-numThreads"; "3"]%string ++ ["-totalCalls"; "40"]%string)
  = Resolved (set_totalCalls 40
               (set_numThreads 3 (set_totalCalls 7
                  (set_url "http://localhost:9999" defaults)))).
Proof.
  refine (proj1 (proj1 (last_flag_wins
            ["api-tester"; "http://localhost:9999"; "-totalCalls"; "7";
             "-numThreads"; "3"]%string _ _) "40"%string 40 _)).
  - vm_compute. reflexivity.
  - vm_compute. reflexivity.
Defined.

(** X6. An argument that is not one of the program's flags is skipped:
    following arguments that resolve, it leaves the configuration as it
    was. *)
Theorem unknown_argument_ignored `{W : World} (args : list string) (c : Config)
    (x : string) :
  resolve args = Resolved c ->
  isHelp x = false ->
  x ∉ valueFlags ->
  x ∉ switchFlags ->
  resolve (args ++ [x]) = Resolved c.
Proof.
  intros Hr Hh Hv Hs.
  rewrite (resolve_app args [x] c Hr) by (simpl; by rewrite Hh).
  unfold valueFlags in Hv. unfold switchFlags in Hs.
  rewrite !not_elem_of_cons in Hv. rewrite !not_elem_of_cons in Hs.
  destruct Hv as (H1 & H2 & H3 & H4 & H5 & _). destruct Hs as (H6 & H7 & _).
  simpl.
  by rewrite (proj2 (String.eqb_neq _ _) H1), (proj2 (String.eqb_neq _ _) H2),
    (proj2 (String.eqb_neq _ _) H3), (proj2 (String.eqb_neq _ _) H4),
    (proj2 (String.eqb_neq _ _) H5), (proj2 (String.eqb_neq _ _) H6),
    (proj2 (String.eqb_neq _ _) H7).
Qed.

Lemma unknown_argument_ignored_witness :
  resolve (["api-tester"; "http://localhost:9999"; "-numThreads"; "3"]%string
             ++ ["-verbose"%string])
  = Resolved (set_numThreads 3 (set_url "http://localhost:9999" defaults)).
Proof.
  apply unknown_argument_ignored.
  - vm_compute. reflexivity.
  - reflexivity.
  - unfold valueFlags. rewrite !not_elem_of_cons. repeat split; try discriminate.
    apply not_elem_of_nil.
  - unfold switchFlags. rewrite !not_elem_of_cons. repeat split; try discriminate.
    apply not_elem_of_nil.
Defined.

(** ** The transport *)

(** The flag loop never changes [url]. *)
Lemma parseFlags_url `{W : World} (n : nat) :
  forall rest c0 c,
    (length rest <= n)%nat ->
    parseFlags c0 rest = Resolved c ->
    url c = url c0.
Proof.
  induction n as [|n IH]; intros rest c0 c Hlen Hp.
  - destruct rest; [|simpl in Hlen; lia]. simpl in Hp. by simplify_eq.
  - destruct rest as [|a tl]; [simpl in Hp; by simplify_eq|].
    simpl in Hlen. simpl in Hp.
    repeat case_match; simplify_eq;
      match goal with
      | Hq : parseFlags ?c1 ?tl' = Resolved _ |- _ =>
          rewrite (IH tl' c1 c); [reflexivity|simpl in *; lia|exact Hq]
      end.
Qed.

Lemma resolve_url `{W : World} (args : list string) (c : Config) :
  resolve args = Resolved c ->
  args !! 1%nat = Some (url c) /\ String.prefix "http" (url c) = true.
Proof.
  unfold resolve. destruct args as [|prog [|a1 rest]]; [done|done|].
  destruct (existsb isHelp (a1 :: rest)); [done|].
  destruct (String.prefix "http" a1) eqn:Hp; [|done].
  intros Hr. apply (parseFlags_url (length rest)) in Hr; [|done].
  simpl in *. by rewrite Hr.
Qed.

Lemma lower_ascii_s (ch : ascii) :
  Ascii.eqb (lower_ascii ch) "s" = Ascii.eqb ch "s" || Ascii.eqb ch "S".
Proof. by destruct ch as [[] [] [] [] [] [] [] []]. Qed.

Lemma prefix_cons (a b : ascii) (s1 s2 : string) :
  String.prefix (String a s1) (String b s2) = Ascii.eqb a b && String.prefix s1 s2.
Proof.
  cbn [String.prefix]. destruct (ascii_dec a b) as [->|Hne].
  - by rewrite Ascii.eqb_refl.
  - apply Ascii.eqb_neq in Hne. by rewrite Hne.
Qed.

Lemma prefix_empty (s : string) : String.prefix "" s = true.
Proof. by destruct s. Qed.

Lemma https_prefix (u : string) :
  String.prefix "http" u = true ->
  String.prefix "https" (ToLower u)
  = String.prefix "https" u || String.prefix "httpS" u.
Proof.
  destruct u as [|c1 [|c2 [|c3 [|c4 r]]]]; try done;
    try (rewrite !prefix_cons; cbn [String.prefix]; by rewrite ?andb_false_r).
  rewrite !prefix_cons, prefix_empty, !andb_true_iff, !Ascii.eqb_eq.
  intros (<- & <- & <- & <- & _).
  cbn [ToLower]. change (lower_ascii "h") with "h"%char.
  change (lower_ascii "t") with "t"%char. change (lower_ascii "p") with "p"%char.
  rewrite !prefix_cons, !Ascii.eqb_refl. cbn [andb].
  destruct r as [|c5 r]; [done|]. cbn [ToLower].
  rewrite !prefix_cons, !prefix_empty, !andb_true_r.
  rewrite (Ascii.eqb_sym "s"), (Ascii.eqb_sym "s" c5), (Ascii.eqb_sym "S" c5).
  apply lower_ascii_s.
Qed.

(** X7. For every resolved configuration the URL is the first argument,
    unchanged by the flags, and the transport skips certificate
    verification exactly when that URL begins with [https] or [httpS] (the
    first four letters having passed the case-sensitive [http] check). *)
Theorem tls_verification_skipped_for_https `{W : World}
    (args : list string) (c : Config) :
  resolve args = Resolved c ->
  args !! 1%nat = Some (url c) /\
  InsecureSkipVerify (ClientTransport (newClient c))
  = String.prefix "https" (url c) || String.prefix "httpS" (url c).
Proof.
  intros Hr. destruct (resolve_url args c Hr) as [Hu Hp].
  split; [done|]. simpl. by apply https_prefix.
Qed.

Lemma tls_verification_skipped_for_https_witness :
  exists c,
    resolve ["api-tester"; "httpS://localhost:8443"; "-numThreads"; "2"]%string
    = Resolved c /\
    InsecureSkipVerify (ClientTransport (newClient c)) = true.
Proof.
  eexists. split; [vm_compute; reflexivity|].
  refine (eq_trans (proj2 (tls_verification_skipped_for_https
            ["api-tester"; "httpS://localhost:8443"; "-numThreads"; "2"]%string
            _ _)) _).
  - vm_compute. reflexivity.
  - reflexivity.
Defined.

(** ** The log and the aggregate *)

Section LogFacts.

Context `{W : World}.

Lemma lineTime_logLine threadID i err status rt :
  lineTime (logLine threadID i err status rt) = Some rt.
Proof. by destruct err. Qed.

Lemma callLoop_wellLogged request d keep threadID n i status :
  Forall wellLogged (callLoop request d keep threadID n i status).
Proof.
  revert i status. induction n as [|n IH]; intros i status; [constructor|].
  rewrite callLoop_S. apply Forall_app. split; [|apply IH].
  unfold iteration, handleBody.
  destruct (resp (roundTrip threadID i)); [destruct keep|]; simpl;
    repeat constructor; apply lineTime_logLine.
Qed.

Lemma fetchData_wellLogged url_ d keep reuse threadID numCalls :
  Forall wellLogged (fetchData url_ d keep reuse threadID numCalls).
Proof.
  unfold fetchData, NewRequest. destruct (url_parse_error url_).
  - by repeat constructor.
  - apply Forall_app. split; [apply callLoop_wellLogged|by repeat constructor].
Qed.

Lemma launch_wellLogged (c : Config) gs :
  launch c = Some gs -> Forall (Forall wellLogged) gs.
Proof.
  unfold launch. destruct (assignments (totalCalls c) (numThreads c)); [|done].
  intros [= <-]. apply Forall_fmap, Forall_true. intros w.
  apply fetchData_wellLogged.
Qed.

(** Along a run the times shown in the per-call lines are the aggregate. *)
Lemma step_logged p k :
  Forall (Forall wellLogged) (goroutines p) ->
  omap lineTime (stdout p) = responseTimes p ->
  Forall (Forall wellLogged) (goroutines (step p k)) /\
  omap lineTime (stdout (step p k)) = responseTimes (step p k).
Proof.
  intros Hw Hl.
  destruct (step_cases p k) as [->|(a & rest & _ & Hk & ->)]; [done|].
  assert (Forall wellLogged (a :: rest)) as Har by (eapply Forall_lookup_1; eauto).
  apply Forall_cons in Har as [Ha Hrest].
  rewrite perform_goroutines. split; [by apply Forall_insert|].
  destruct a; simpl in *; rewrite ?omap_app, ?Hl; simpl;
    rewrite ?Ha, ?app_nil_r; done.
Qed.

Lemma run_logged sched p :
  Forall (Forall wellLogged) (goroutines p) ->
  omap lineTime (stdout p) = responseTimes p ->
  omap lineTime (stdout (run sched p)) = responseTimes (run sched p).
Proof.
  revert p. induction sched as [|k sched IH]; intros p Hw Hl; [done|].
  unfold run in *. simpl. destruct (step_logged p k Hw Hl). by apply IH.
Qed.

(** The aggregate and the appends still owed are, up to order, the appends
    of the workers as launched. *)
Lemma step_appends_perm p k :
  responseTimes (step p k) ++ concat (appendsOf <$> goroutines (step p k))
  ≡ₚ responseTimes p ++ concat (appendsOf <$> goroutines p).
Proof.
  destruct (step_cases p k) as [->|(a & rest & _ & Hk & ->)]; [done|].
  rewrite perform_goroutines, perform_responseTimes.
  rewrite insert_take_drop by (by eapply lookup_lt_Some).
  rewrite <- (take_drop_middle (goroutines p) k (a :: rest) Hk) at 3.
  rewrite !fmap_app, !fmap_cons, !concat_app, !concat_cons.
  change (appendsOf (a :: rest)) with (omap isAppend ([a] ++ rest)).
  rewrite omap_app. fold (appendsOf [a]) (appendsOf rest).
  solve_Permutation.
Qed.

Lemma run_appends_perm sched p :
  responseTimes (run sched p) ++ concat (appendsOf <$> goroutines (run sched p))
  ≡ₚ responseTimes p ++ concat (appendsOf <$> goroutines p).
Proof.
  revert p. induction sched as [|k sched IH]; intros p; [done|].
  unfold run in *. simpl. rewrite IH. apply step_appends_perm.
Qed.

Lemma joined_appends p :
  joined p = true -> concat (appendsOf <$> goroutines p) = [].
Proof.
  unfold joined. induction (goroutines p) as [|g gs IH]; [done|].
  simpl. intros [Hg Hgs]%andb_true_iff. destruct g; [|done]. by apply IH.
Qed.

Lemma run_nil sched : run sched (spawn []) = spawn [].
Proof. induction sched as [|k sched IH]; [done|]. unfold run in *. by simpl. Qed.

End LogFacts.

(** X10. Under every schedule and however the run ends, the response
    times shown in the per-call lines of the output, in output order, are
    exactly the shared [responseTimes] in its order: the lock makes each
    line and its append one step. *)
Theorem log_lines_match_responseTimes `{W : World} (c : Config) (sched : list nat) :
  omap lineTime (printed (engine c sched)) = times (engine c sched).
Proof.
  unfold engine. destruct (launch c) as [gs|] eqn:Hl; [|done].
  pose proof (run_logged sched (spawn gs) (launch_wellLogged c gs Hl) eq_refl) as Hr.
  destruct (panicked (run sched (spawn gs))); [done|].
  destruct (joined (run sched (spawn gs))); [|done].
  simpl. rewrite omap_app, Hr. simpl. by rewrite app_nil_r.
Qed.

(** X11. When a run in which every request was built returns, the shared
    [responseTimes] holds, up to the order of the interleaving, exactly
    the measured times of the assigned calls of all workers: none lost,
    none twice. *)
Theorem responseTimes_are_the_calls `{W : World} (c : Config) (sched : list nat)
    (ws : list (Z * Z)) :
  url_parse_error (url c) = None ->
  assignments (totalCalls c) (numThreads c) = Some ws ->
  exit (engine c sched) = Returned ->
  times (engine c sched)
  ≡ₚ concat ((fun w : Z * Z =>
                (fun j => responseTimeOf (roundTrip w.1 j)) <$> seqZ 0 w.2) <$> ws).
Proof.
  intros Hu Hws (gs & Hl & _ & Hj & -> & _)%engine_returned.
  pose proof (run_appends_perm sched (spawn gs)) as Hp.
  rewrite (joined_appends _ Hj), app_nil_r in Hp. simpl in Hp.
  rewrite Hp. unfold launch in Hl. rewrite Hws in Hl. simpl in Hl.
  injection Hl as <-. rewrite <- list_fmap_compose.
  assert ((appendsOf ∘ (fun w : Z * Z =>
             fetchData (url c) (sleepTime c) (keepConnectsOpen c)
                       (reuseConnects c) w.1 w.2)) <$> ws
          = (fun w : Z * Z =>
               (fun j => responseTimeOf (roundTrip w.1 j)) <$> seqZ 0 w.2) <$> ws)
    as ->; [|done].
  apply list_fmap_ext. intros k w _. simpl. by apply fetchData_appends.
Qed.

Lemma responseTimes_are_the_calls_witness :
  times (engine sample_config sample_schedule)
  ≡ₚ concat ((fun w : Z * Z =>
                (fun j => responseTimeOf (roundTrip w.1 j)) <$> seqZ 0 w.2)
               <$> [(0, 3); (1, 2)]).
Proof.
  apply responseTimes_are_the_calls; vm_compute; reflexivity.
Defined.

(** ** More on the worker *)

Section SleepFacts.

Context `{W : World}.

Lemma iteration_sleeps request d keep threadID status i :
  sleepsOf (iteration request d keep threadID status i).1 = [d] /\
  exists before, (iteration request d keep threadID status i).1 = before ++ [ASleep d].
Proof.
  unfold iteration, handleBody.
  destruct (resp (roundTrip threadID i)); [destruct keep|]; simpl;
    (split; [reflexivity|]).
  - by eexists [_; _].
  - by eexists [_; _; _; _].
  - by eexists [_; _].
Qed.

Lemma callLoop_sleeps request d keep threadID n i status :
  sleepsOf (callLoop request d keep threadID n i status) = replicate n d.
Proof.
  revert i status. induction n as [|n IH]; intros i status; [done|].
  rewrite callLoop_S.
  destruct (iteration_sleeps request d keep threadID status i) as [Hs _].
  unfold sleepsOf in *. by rewrite omap_app, IH, Hs.
Qed.

End SleepFacts.

(** X12. For a call that returned a response, what the log says is decided
    by the last assignment to [err]: with [keepConnectsOpen] false the
    line is a success with the response's status exactly when closing the
    body succeeded, and a failure carrying the close error otherwise,
    whatever error [Do] or the drain returned; with [keepConnectsOpen] true
    it is decided by the error of [Do]. *)
Theorem logged_outcome_of_a_response `{W : World}
    (url_ : string) (d : time.Duration) (keep reuse : bool)
    (threadID numCalls i : Z) (rp : Response) :
  url_parse_error url_ = None ->
  0 <= i < numCalls ->
  resp (roundTrip threadID i) = Some rp ->
  let r := roundTrip threadID i in
  let decisive := if keep then do_err r else close_err r in
  ALogAppend (match decisive with
              | Some e => LRequestFailed threadID i e (responseTimeOf r)
              | None => LSuccess threadID i (Status rp) (responseTimeOf r)
              end) (responseTimeOf r)
  ∈ fetchData url_ d keep reuse threadID numCalls.
Proof.
  intros Hu Hi Hresp r decisive.
  destruct (fetchData_at url_ d keep reuse threadID numCalls i Hu Hi)
    as (before & status & -> & _).
  apply elem_of_app. right. apply elem_of_app. left.
  unfold decisive, r. destruct keep.
  - rewrite (iteration_kept_open _ _ _ _ _ _ rp) by done. simpl.
    apply list_elem_of_further, list_elem_of_here.
  - rewrite (iteration_drained _ _ _ _ _ _ rp) by done. simpl.
    do 3 apply list_elem_of_further. apply list_elem_of_here.
Qed.

Lemma logged_outcome_of_a_response_witness :
  ALogAppend (LSuccess 0 1 "200 OK" (responseTimeOf (roundTrip 0 1)))
             (responseTimeOf (roundTrip 0 1))
  ∈ fetchData "http://localhost:9999" 0 false false 0 3.
Proof.
  assert (url_parse_error "http://localhost:9999" = None) as Hu
    by (vm_compute; reflexivity).
  assert (resp (roundTrip 0 1) = Some (mkResponse "200 OK")) as Hr
    by (vm_compute; reflexivity).
  exact (logged_outcome_of_a_response "http://localhost:9999" 0 false false
           0 3 1 (mkResponse "200 OK") Hu ltac:(lia) Hr).
Defined.

(** X14. A worker whose request was built sleeps [sleepTime] once after
    every call, the last one included: it sleeps as many times as it makes
    calls, and when it has at least one call its last action before
    signalling completion is a sleep. *)
Theorem worker_sleeps_after_every_call `{W : World}
    (url_ : string) (d : time.Duration) (keep reuse : bool) (threadID numCalls : Z) :
  url_parse_error url_ = None ->
  sleepsOf (fetchData url_ d keep reuse threadID numCalls)
  = replicate (Z.to_nat numCalls) d /\
  (1 <= numCalls ->
   exists before,
     fetchData url_ d keep reuse threadID numCalls = before ++ [ASleep d; ADone]).
Proof.
  intros Hu. rewrite fetchData_built by done. split.
  - unfold sleepsOf. rewrite omap_app.
    fold (sleepsOf (callLoop (requestTemplate url_ reuse) d keep threadID
                             (Z.to_nat numCalls) 0 "")).
    rewrite callLoop_sleeps. simpl. by rewrite app_nil_r.
  - intros Hn.
    replace (Z.to_nat numCalls) with (Z.to_nat (numCalls - 1) + 1)%nat by lia.
    rewrite callLoop_app, callLoop_S. cbn [callLoop]. rewrite app_nil_r.
    destruct (iteration_sleeps (requestTemplate url_ reuse) d keep threadID
      (statusAfter (requestTemplate url_ reuse) d keep threadID
                   (Z.to_nat (numCalls - 1)) 0 "")
      (0 + Z.of_nat (Z.to_nat (numCalls - 1)))) as [_ [before ->]].
    exists (callLoop (requestTemplate url_ reuse) d keep threadID
                     (Z.to_nat (numCalls - 1)) 0 "" ++ before).
    rewrite <- !app_assoc. reflexivity.
Qed.

Lemma worker_sleeps_after_every_call_witness :
  sleepsOf (fetchData "http://localhost:9999" 50000000 false true 2 3)
  = [50000000; 50000000; 50000000].
Proof.
  refine (proj1 (worker_sleeps_after_every_call
                   "http://localhost:9999" 50000000 false true 2 3 _)).
  vm_compute. reflexivity.
Defined.

(** ** Edges of the partition *)

(** X8. A negative [-numThreads] is accepted and nothing is checked: the
    divisions do not panic, the launch loop does not run, and under every
    schedule the run returns at once with an empty [responseTimes], having
    made no call whatever [totalCalls] is. *)
Theorem negative_numThreads_runs_nothing `{W : World} (c : Config) (sched : list nat) :
  numThreads c < 0 ->
  launch c = Some [] /\
  engine c sched = mkOutcome (summary c []) [] [] Returned.
Proof.
  intros Hn.
  assert (launch c = Some []) as Hl.
  { unfold launch, assignments, GoInt.quo, GoInt.rem.
    destruct (Z.eqb_spec (numThreads c) 0); [lia|]. simpl.
    by rewrite seqZ_nil by lia. }
  split; [done|]. unfold engine. rewrite Hl, run_nil. done.
Qed.

Lemma negative_numThreads_runs_nothing_witness :
  times (main ["api-tester"; "http://localhost:9999"; "-totalCalls"; "10";
               "-numThreads"; "-3"]%string sample_schedule) = [] /\
  exit (main ["api-tester"; "http://localhost:9999"; "-totalCalls"; "10";
              "-numThreads"; "-3"]%string sample_schedule) = Returned.
Proof.
  assert (main ["api-tester"; "http://localhost:9999"; "-totalCalls"; "10";
                "-numThreads"; "-3"]%string sample_schedule
          = engine (set_numThreads (-3) (set_totalCalls 10
                      (set_url "http://localhost:9999" defaults))) sample_schedule)
    as -> by reflexivity.
  rewrite (proj2 (negative_numThreads_runs_nothing
                    (set_numThreads (-3) (set_totalCalls 10
                       (set_url "http://localhost:9999" defaults)))
                    sample_schedule ltac:(simpl; lia))).
  done.
Defined.

Lemma negative_totalCalls_counts (totalCalls_ numThreads_ : Z) ws :
  GoInt.min_int <= totalCalls_ < 0 ->
  1 <= numThreads_ ->
  assignments totalCalls_ numThreads_ = Some ws ->
  length ws = Z.to_nat numThreads_ /\ Forall (fun w : Z * Z => w.2 <= 0) ws.
Proof.
  intros Ht Hn. unfold assignments, GoInt.quo, GoInt.rem.
  destruct (Z.eqb_spec numThreads_ 0); [lia|]. simpl. intros [= <-].
  split; [by rewrite length_fmap, length_seqZ|].
  apply Forall_fmap, Forall_forall. intros i Hi%elem_of_seqZ. simpl.
  assert (totalCalls_ <= Z.quot totalCalls_ numThreads_ <= 0) as Hq.
  { replace totalCalls_ with (- - totalCalls_) at 2 3 by lia.
    rewrite Z.quot_opp_l, Z.quot_div_nonneg by lia.
    assert (0 <= - totalCalls_ / numThreads_ <= - totalCalls_).
    { split; [apply Z.div_pos; lia|]. apply Z.div_le_upper_bound; nia. }
    lia. }
  assert (Z.rem totalCalls_ numThreads_ <= 0) as Hr.
  { replace totalCalls_ with (- - totalCalls_) by lia.
    rewrite Z.rem_opp_l, Z.rem_mod_nonneg by lia.
    pose proof (Z.mod_pos_bound (- totalCalls_) numThreads_ ltac:(lia)). lia. }
  unfold numCallsOf. destruct (Z.ltb_spec i (Z.rem totalCalls_ numThreads_)); [lia|].
  rewrite wrap_in_range; [lia|].
  unfold GoInt.in_range, GoInt.min_int, GoInt.max_int in *. lia.
Qed.

(** X9. A negative [-totalCalls] (with [numThreads >= 1] and the request
    built) still launches [numThreads] workers, but every one of them gets
    a count that is not positive and just signals completion; the process
    never panics and a run that returns has an empty [responseTimes]. *)
Theorem negative_totalCalls_makes_no_call `{W : World} (c : Config) :
  GoInt.min_int <= totalCalls c < 0 ->
  1 <= numThreads c ->
  url_parse_error (url c) = None ->
  launch c = Some (replicate (Z.to_nat (numThreads c)) [ADone]) /\
  forall sched,
    (exit (engine c sched) = Returned \/ exit (engine c sched) = Waiting) /\
    times (engine c sched) = [].
Proof.
  intros Ht Hn Hu.
  assert (launch c = Some (replicate (Z.to_nat (numThreads c)) [ADone])) as Hl.
  { unfold launch.
    destruct (assignments (totalCalls c) (numThreads c)) as [ws|] eqn:Hws.
    - destruct (negative_totalCalls_counts _ _ ws Ht Hn Hws) as [Hlen Hall].
      simpl. f_equal. rewrite <- Hlen. clear Hlen Hws.
      induction Hall as [|[i n] ws Hle _ IH]; [done|].
      rewrite fmap_cons. simpl in *. rewrite IH. f_equal.
      rewrite fetchData_built by done.
      replace (Z.to_nat n) with 0%nat by lia. done.
    - unfold assignments, GoInt.quo, GoInt.rem in Hws.
      destruct (Z.eqb_spec (numThreads c) 0); [lia|done]. }
  split; [done|]. intros sched. unfold engine. rewrite Hl.
  set (gs := replicate (Z.to_nat (numThreads c)) [ADone]).
  assert (Forall panicFree gs) as Hfree.
  { apply Forall_replicate. by repeat constructor. }
  assert (sum_list_with owed gs = 0%nat) as Hsum.
  { unfold gs. generalize (Z.to_nat (numThreads c)) as m.
    induction m as [|m IHm]; [done|].
    cbn [replicate sum_list_with]. by rewrite IHm. }
  destruct (run_panicFree sched (spawn gs) eq_refl Hfree) as [-> _].
  pose proof (run_owed sched (spawn gs)) as Ho. simpl in Ho.
  assert (responseTimes (run sched (spawn gs)) = []) as Hnil.
  { destruct (responseTimes (run sched (spawn gs))); [done|simpl in Ho; lia]. }
  destruct (joined (run sched (spawn gs))); simpl; auto.
Qed.

Lemma negative_totalCalls_makes_no_call_witness :
  launch (set_totalCalls (-7) sample_config) = Some [[ADone]; [ADone]].
Proof.
  refine (proj1 (negative_totalCalls_makes_no_call
                   (set_totalCalls (-7) sample_config) _ _ _)).
  - vm_compute. split; [discriminate|reflexivity].
  - vm_compute. discriminate.
  - vm_compute. reflexivity.
Defined.

(** X13. With more workers than calls ([0 <= totalCalls < numThreads]) the
    first [totalCalls] workers get one call each and all the others are
    launched with none. *)
Theorem more_workers_than_calls (totalCalls_ numThreads_ : Z) :
  0 <= totalCalls_ < numThreads_ ->
  numThreads_ <= GoInt.max_int ->
  partition totalCalls_ numThreads_
  = Some ((fun i => if i <? totalCalls_ then 1 else 0) <$> seqZ 0 numThreads_).
Proof.
  intros Ht Hn.
  rewrite partition_share by lia.
  by rewrite Z.div_small, Z.mod_small by lia.
Qed.

Lemma more_workers_than_calls_witness :
  partition 2 5 = Some [1; 1; 0; 0; 0].
Proof.
  refine (eq_trans (more_workers_than_calls 2 5 _ _) _).
  - lia.
  - unfold GoInt.max_int. lia.
  - reflexivity.
Defined.

(** ** Order within a worker *)

Lemma engine_performed `{W : World} (c : Config) (sched : list nat) gs :
  launch c = Some gs ->
  performed (engine c sched) = history (run sched (spawn gs)).
Proof.
  intros Hl. unfold engine. rewrite Hl.
  destruct (panicked (run sched (spawn gs))); [done|].
  by destruct (joined (run sched (spawn gs))).
Qed.

(** X15. Under every schedule, and at every point of the run, the calls
    worker [k] has made so far are an initial segment of its calls
    0, 1, 2, ... in that order: within a worker no call starts before the
    previous one was handled, and none is repeated or skipped. *)
Theorem worker_calls_in_order `{W : World} (c : Config) (sched : list nat)
    (ws : list (Z * Z)) (k : nat) (threadID numCalls : Z) :
  assignments (totalCalls c) (numThreads c) = Some ws ->
  ws !! k = Some (threadID, numCalls) ->
  callsOf (actionsOf k (performed (engine c sched)))
  `prefix_of` (fun j => (threadID, j)) <$> seqZ 0 numCalls.
Proof.
  intros Hws Hk.
  assert (launch c
          = Some ((fun w : Z * Z =>
                     fetchData (url c) (sleepTime c) (keepConnectsOpen c)
                               (reuseConnects c) w.1 w.2) <$> ws)) as Hl
    by (unfold launch; by rewrite Hws).
  rewrite (engine_performed c sched _ Hl).
  pose proof (run_program_order sched
                ((fun w : Z * Z =>
                    fetchData (url c) (sleepTime c) (keepConnectsOpen c)
                              (reuseConnects c) w.1 w.2) <$> ws) k) as Hpo.
  simpl in Hpo.
  rewrite list_lookup_fmap, Hk in Hpo. simpl in Hpo.
  assert (callsOf (fetchData (url c) (sleepTime c) (keepConnectsOpen c)
                             (reuseConnects c) threadID numCalls)
          `prefix_of` (fun j => (threadID, j)) <$> seqZ 0 numCalls) as Hall.
  { destruct (url_parse_error (url c)) as [e|] eqn:Hu.
    - rewrite (fetchData_not_built _ _ _ _ _ _ e) by done. apply prefix_nil.
    - by rewrite fetchData_calls. }
  etrans; [|exact Hall]. rewrite <- Hpo. unfold callsOf. rewrite omap_app.
  by apply prefix_app_r.
Qed.

Lemma worker_calls_in_order_witness :
  callsOf (actionsOf 1 (performed (engine sample_config [1; 1; 0; 1; 1; 1; 1]%nat)))
  `prefix_of` (fun j => (1, j)) <$> seqZ 0 2.
Proof.
  apply (worker_calls_in_order sample_config [1; 1; 0; 1; 1; 1; 1]%nat
           [(0, 3); (1, 2)] 1 1 2); vm_compute; reflexivity.
Defined.

(** ** What a run has performed *)

Section HistoryFacts.

Context `{W : World}.

Lemma elem_of_actionsOf (k : nat) (a : Action) (h : list (nat * Action)) :
  (k, a) ∈ h <-> a ∈ actionsOf k h.
Proof.
  unfold actionsOf. rewrite list_elem_of_fmap. split.
  - intros Hin. exists (k, a). split; [done|]. by apply list_elem_of_filter.
  - intros ([k' a'] & -> & [Hk Hin]%list_elem_of_filter). simpl in Hk. by subst.
Qed.

(** Whatever a worker has performed is one of the actions it was launched
    with. *)
Lemma performed_from_goroutine sched gs (k : nat) (a : Action) :
  (k, a) ∈ history (run sched (spawn gs)) ->
  exists g, gs !! k = Some g /\ a ∈ g.
Proof.
  intros Hin%elem_of_actionsOf.
  pose proof (run_program_order sched gs k) as Hpo. simpl in Hpo.
  destruct (gs !! k) as [g|] eqn:Hg.
  - exists g. split; [done|]. simpl in Hpo. rewrite <- Hpo.
    apply elem_of_app. by left.
  - simpl in Hpo. apply app_eq_nil in Hpo as [Hnil _].
    rewrite Hnil in Hin. by apply elem_of_nil in Hin.
Qed.

(** Standard output and the aggregate are what the performed actions have
    written and appended, in order. *)
Lemma step_output p k :
  stdout p = linesOf (history p).*2 ->
  responseTimes p = appendsOf (history p).*2 ->
  stdout (step p k) = linesOf (history (step p k)).*2 /\
  responseTimes (step p k) = appendsOf (history (step p k)).*2.
Proof.
  intros Hs Hr.
  destruct (step_cases p k) as [->|(a & rest & _ & Hk & ->)]; [done|].
  rewrite perform_history, perform_responseTimes, fmap_app.
  unfold linesOf, appendsOf in *. rewrite !omap_app, <- Hs, <- Hr.
  split; [|done]. destruct a; simpl; by rewrite ?app_nil_r.
Qed.

Lemma run_output sched gs :
  stdout (run sched (spawn gs)) = linesOf (history (run sched (spawn gs))).*2 /\
  responseTimes (run sched (spawn gs))
  = appendsOf (history (run sched (spawn gs))).*2.
Proof.
  assert (stdout (spawn gs) = linesOf (history (spawn gs)).*2 /\
          responseTimes (spawn gs) = appendsOf (history (spawn gs)).*2) as Hinit
    by done.
  revert Hinit. generalize (spawn gs) as p.
  induction sched as [|k sched IH]; intros p [Hs Hr]; [done|].
  unfold run in *. simpl. apply IH. by apply step_output.
Qed.

(** A performed action has written its line and appended its time. *)
Lemma performed_written sched gs (k : nat) (a : Action) :
  (k, a) ∈ history (run sched (spawn gs)) ->
  (forall l, isLine a = Some l -> l ∈ stdout (run sched (spawn gs))) /\
  (forall rt, isAppend a = Some rt -> rt ∈ responseTimes (run sched (spawn gs))).
Proof.
  intros Hin. destruct (run_output sched gs) as [-> ->].
  assert (a ∈ (history (run sched (spawn gs))).*2) as Ha.
  { apply list_elem_of_fmap. by exists (k, a). }
  split; intros x Hx; apply list_elem_of_omap; by exists a.
Qed.

(** A line on standard output was written by a performed action. *)
Lemma written_performed sched gs (l : Line) :
  l ∈ stdout (run sched (spawn gs)) ->
  exists k a, (k, a) ∈ history (run sched (spawn gs)) /\ isLine a = Some l.
Proof.
  destruct (run_output sched gs) as [-> _].
  intros (a & ([k a'] & -> & Hin)%list_elem_of_fmap & Hl)%list_elem_of_omap.
  by exists k, a'.
Qed.

(** In a returned run every worker has performed every action it was
    launched with. *)
Lemma returned_performed (c : Config) sched ws (k : nat) threadID numCalls a :
  exit (engine c sched) = Returned ->
  assignments (totalCalls c) (numThreads c) = Some ws ->
  ws !! k = Some (threadID, numCalls) ->
  a ∈ fetchData (url c) (sleepTime c) (keepConnectsOpen c) (reuseConnects c)
                threadID numCalls ->
  (k, a) ∈ performed (engine c sched).
Proof.
  intros Hr Hws Hk Ha. apply elem_of_actionsOf.
  by rewrite (engine_worker_actions c sched ws k threadID numCalls).
Qed.

(** The lines the call loop writes: the line of iteration [j] is decided
    by the [err] that [handleBody] leaves. *)
Lemma callLoop_lines request d keep threadID n i0 status :
  Forall (fun a =>
            forall l, isLine a = Some l ->
            exists j st,
              l = logLine threadID j
                    (handleBody keep threadID st j (roundTrip threadID j)).1.2
                    (handleBody keep threadID st j (roundTrip threadID j)).1.1
                    (responseTimeOf (roundTrip threadID j)))
         (callLoop request d keep threadID n i0 status).
Proof.
  revert i0 status. induction n as [|n IH]; intros i0 status; [constructor|].
  rewrite callLoop_S. apply Forall_app. split; [|apply IH].
  unfold iteration.
  destruct (handleBody keep threadID status i0 (roundTrip threadID i0))
    as [[st' err] body] eqn:Hb.
  simpl. constructor; [intros l [=]|]. apply Forall_app. split.
  - assert (Forall (fun a => isBodyRead a = true) body) as Hbody.
    { unfold handleBody in Hb.
      destruct (resp (roundTrip threadID i0)); [destruct keep|];
        simplify_eq/=; repeat constructor. }
    eapply Forall_impl; [exact Hbody|]. intros a Ha l Hl. by destruct a.
  - constructor; [|constructor; [intros l [=]|constructor]].
    intros l [= <-]. exists i0, status. by rewrite Hb.
Qed.

End HistoryFacts.

(** ** Requests, logged outcomes and statistics of a run *)

Section TemplateFacts.

Context `{W : World}.

(** The template [fetchData] builds, written out. *)
Lemma requestTemplate_eq (url_ : string) (reuse : bool) :
  requestTemplate url_ reuse
  = {| Method := "GET"; URL := url_;
       Header := {[ "Connection"%string :=
                      [if reuse then "keep-alive" else "close"]%string ]} |}.
Proof.
  unfold requestTemplate, Header_Add, connectionValue. simpl.
  rewrite lookup_empty. simpl. rewrite insert_empty. by destruct reuse.
Qed.

Lemma iteration_head request d keep threadID status i :
  exists rest,
    (iteration request d keep threadID status i).1 = ADo request threadID i :: rest.
Proof.
  unfold iteration.
  destruct (handleBody keep threadID status i (roundTrip threadID i))
    as [[st' err] body].
  simpl. by eexists.
Qed.

(** A worker whose request was built makes each of its calls with the
    template. *)
Lemma fetchData_calls_with_template url_ d keep reuse threadID numCalls i :
  url_parse_error url_ = None ->
  0 <= i < numCalls ->
  ADo (requestTemplate url_ reuse) threadID i
  ∈ fetchData url_ d keep reuse threadID numCalls.
Proof.
  intros Hu Hi.
  destruct (fetchData_at url_ d keep reuse threadID numCalls i Hu Hi)
    as (before & status & -> & _).
  destruct (iteration_head (requestTemplate url_ reuse) d keep threadID status i)
    as [rest ->].
  apply elem_of_app. right. apply list_elem_of_here.
Qed.

(** Every call of a worker, whether its request was built or not, carries
    the template. *)
Lemma fetchData_only_template url_ d keep reuse threadID numCalls r t j :
  ADo r t j ∈ fetchData url_ d keep reuse threadID numCalls ->
  r = requestTemplate url_ reuse.
Proof.
  intros Hdo. destruct (url_parse_error url_) as [e|] eqn:Hu.
  - rewrite (fetchData_not_built _ _ _ _ _ _ e) in Hdo by done.
    apply elem_of_cons in Hdo as [?|Hdo]; [done|].
    apply elem_of_cons in Hdo as [?|Hdo]; [done|].
    by apply elem_of_nil in Hdo.
  - rewrite fetchData_built in Hdo by done.
    apply elem_of_app in Hdo as [Hdo|Hdo].
    + pose proof (callLoop_requests (requestTemplate url_ reuse) d keep
                    threadID (Z.to_nat numCalls) 0 "") as Hreq.
      rewrite Forall_forall in Hreq. by eapply Hreq.
    + apply elem_of_cons in Hdo as [?|Hdo]; [done|].
      by apply elem_of_nil in Hdo.
Qed.

Lemma launch_lookup (c : Config) gs (k : nat) g :
  launch c = Some gs -> gs !! k = Some g ->
  exists threadID numCalls,
    g = fetchData (url c) (sleepTime c) (keepConnectsOpen c) (reuseConnects c)
                  threadID numCalls.
Proof.
  unfold launch.
  destruct (assignments (totalCalls c) (numThreads c)) as [ws|]; [|done].
  intros [= <-]. rewrite list_lookup_fmap.
  destruct (ws !! k) as [[t n]|]; [|done]. intros [= <-]. by exists t, n.
Qed.

Lemma performed_from_worker (c : Config) sched (k : nat) a :
  (k, a) ∈ performed (engine c sched) ->
  exists threadID numCalls,
    a ∈ fetchData (url c) (sleepTime c) (keepConnectsOpen c) (reuseConnects c)
                  threadID numCalls.
Proof.
  destruct (launch c) as [gs|] eqn:Hl.
  - rewrite (engine_performed c sched gs Hl).
    intros (g & Hg & Ha)%performed_from_goroutine.
    destruct (launch_lookup c gs k g Hl Hg) as (t & n & ->). by exists t, n.
  - unfold engine. rewrite Hl. simpl. by intros ?%elem_of_nil.
Qed.

End TemplateFacts.

(** C8. For every run configuration the transport of the shared client is
    built with [DisableKeepAlives] equal to the negation of
    [reuseConnects].  The request template is a GET of the URL whose only
    header is Connection, with the single value [keep-alive] when
    [reuseConnects] is true and [close] otherwise.  Every worker whose
    request was built makes each of its assigned calls with exactly this
    request; under every schedule, every call the run has performed
    carries it; and in a returned run every assigned call of every worker
    has been performed with it. *)
Theorem connection_policy `{W : World} (c : Config) :
  let request :=
    {| Method := "GET"; URL := url c;
       Header := {[ "Connection"%string :=
                      [if reuseConnects c then "keep-alive" else "close"]%string ]} |} in
  DisableKeepAlives (ClientTransport (newClient c)) = negb (reuseConnects c) /\
  (url_parse_error (url c) = None ->
   forall threadID numCalls i,
     0 <= i < numCalls ->
     ADo request threadID i
     ∈ fetchData (url c) (sleepTime c) (keepConnectsOpen c) (reuseConnects c)
                 threadID numCalls) /\
  (forall sched (k : nat) r t j,
     (k, ADo r t j) ∈ performed (engine c sched) ->
     r = request /\
     Header r !! "Connection"%string
     = Some [if reuseConnects c then "keep-alive" else "close"]%string) /\
  (url_parse_error (url c) = None ->
   forall sched ws (k : nat) threadID numCalls i,
     exit (engine c sched) = Returned ->
     assignments (totalCalls c) (numThreads c) = Some ws ->
     ws !! k = Some (threadID, numCalls) ->
     0 <= i < numCalls ->
     (k, ADo request threadID i) ∈ performed (engine c sched)).
Proof.
  intros request.
  assert (requestTemplate (url c) (reuseConnects c) = request) as Hreq
    by apply requestTemplate_eq.
  split; [done|]. split; [|split].
  - intros Hu threadID numCalls i Hi. rewrite <- Hreq.
    by apply fetchData_calls_with_template.
  - intros sched k r t j (threadID & numCalls & Hdo)%performed_from_worker.
    apply fetchData_only_template in Hdo. rewrite Hdo, Hreq.
    split; [done|]. unfold request. simpl. apply lookup_singleton_eq.
  - intros Hu sched ws k threadID numCalls i Hr Hws Hk Hi.
    apply (returned_performed c sched ws k threadID numCalls); [done..|].
    rewrite <- Hreq. by apply fetchData_calls_with_template.
Qed.

Lemma connection_policy_witness :
  (1%nat,
   ADo {| Method := "GET"; URL := "http://localhost:9999";
          Header := {[ "Connection"%string := ["keep-alive"%string] ]} |} 1 0)
  ∈ performed (engine (set_reuseConnects true sample_config) sample_schedule).
Proof.
  refine (proj2 (proj2 (proj2
            (connection_policy (set_reuseConnects true sample_config))))
            _ sample_schedule [(0, 3); (1, 2)] 1%nat 1 2 0 _ _ _ _).
  - vm_compute. reflexivity.
  - vm_compute. reflexivity.
  - vm_compute. reflexivity.
  - reflexivity.
  - lia.
Defined.

Section OutcomeFacts.

Context `{W : World}.

Lemma summary_no_call_line (c : Config) rts (l : Line) :
  l ∈ summary c rts -> lineTime l = None.
Proof.
  unfold summary. rewrite !elem_of_cons, elem_of_nil.
  intros [->|[->|[->|[->|[]]]]]; reflexivity.
Qed.

(** Every failure line of a run is the line of a call whose [err], as
    [handleBody] leaves it, is that error. *)
Lemma failure_line_origin (c : Config) sched threadID i e rt :
  url_parse_error (url c) = None ->
  LRequestFailed threadID i e rt ∈ printed (engine c sched) ->
  exists st,
    (handleBody (keepConnectsOpen c) threadID st i (roundTrip threadID i)).1.2
    = Some e.
Proof.
  intros Hu Hin.
  assert (exists k a, (k, a) ∈ performed (engine c sched) /\
                      isLine a = Some (LRequestFailed threadID i e rt))
    as (k & a & Hperf & Hline).
  { unfold engine in *. destruct (launch c) as [gs|] eqn:Hl;
      [|by apply elem_of_nil in Hin].
    destruct (panicked (run sched (spawn gs)));
      [by apply written_performed|].
    destruct (joined (run sched (spawn gs))); [|by apply written_performed].
    simpl in *. apply elem_of_app in Hin as [Hin|Hin];
      [by apply written_performed|].
    by apply summary_no_call_line in Hin. }
  apply performed_from_worker in Hperf as (t & n & Ha).
  rewrite fetchData_built in Ha by done.
  apply elem_of_app in Ha as [Ha|Ha].
  - pose proof (callLoop_lines (requestTemplate (url c) (reuseConnects c))
                  (sleepTime c) (keepConnectsOpen c) t (Z.to_nat n) 0 "") as Hl.
    rewrite Forall_forall in Hl.
    destruct (Hl a Ha _ Hline) as (j & st & Heq).
    exists st. unfold logLine in Heq.
    destruct ((handleBody (keepConnectsOpen c) t st j (roundTrip t j)).1.2)
      as [e'|] eqn:He; [|done].
    injection Heq as <- <- <- _. exact He.
  - apply elem_of_cons in Ha as [->|Ha]; [done|]. by apply elem_of_nil in Ha.
Qed.

(** The locked action of a call that returned a response. *)
Lemma response_logged (c : Config) threadID numCalls i rp :
  url_parse_error (url c) = None ->
  0 <= i < numCalls ->
  resp (roundTrip threadID i) = Some rp ->
  let r := roundTrip threadID i in
  ALogAppend (match (if keepConnectsOpen c then do_err r else close_err r) with
              | Some e => LRequestFailed threadID i e (responseTimeOf r)
              | None => LSuccess threadID i (Status rp) (responseTimeOf r)
              end) (responseTimeOf r)
  ∈ fetchData (url c) (sleepTime c) (keepConnectsOpen c) (reuseConnects c)
              threadID numCalls.
Proof.
  intros Hu Hi Hresp r.
  destruct (fetchData_at (url c) (sleepTime c) (keepConnectsOpen c)
              (reuseConnects c) threadID numCalls i Hu Hi)
    as (before & status & -> & _).
  apply elem_of_app. right. apply elem_of_app. left. unfold r.
  destruct (keepConnectsOpen c).
  - rewrite (iteration_kept_open _ _ _ _ _ _ rp) by done. simpl.
    apply list_elem_of_further, list_elem_of_here.
  - rewrite (iteration_drained _ _ _ _ _ _ rp) by done. simpl.
    do 3 apply list_elem_of_further. apply list_elem_of_here.
Qed.

End OutcomeFacts.

(** C5 on the code. Take a returned run in which every request was built
    and an assigned call [i] of a worker that failed although it returned
    a response: [Do] gave an error with the response, or reading the body
    failed.  Its elapsed time is appended to the shared [responseTimes]
    like that of any call.  But with [keepConnectsOpen] false the error is
    overwritten by the result of closing the body: when the close
    succeeds, the line printed for the call is a success line with the
    response's status and no failure line for it is printed at all.  The
    sibling path with [keepConnectsOpen] true keeps the error of [Do] and
    prints the failure line. *)
Theorem failed_call_logged_as_success `{W : World} (c : Config) (sched : list nat)
    (ws : list (Z * Z)) (k : nat) (threadID numCalls i : Z) (rp : Response) :
  url_parse_error (url c) = None ->
  assignments (totalCalls c) (numThreads c) = Some ws ->
  ws !! k = Some (threadID, numCalls) ->
  0 <= i < numCalls ->
  let r := roundTrip threadID i in
  resp r = Some rp ->
  is_Some (do_err r) \/ is_Some (copy_err r) ->
  exit (engine c sched) = Returned ->
  responseTimeOf r ∈ times (engine c sched) /\
  (keepConnectsOpen c = false ->
   close_err r = None ->
   LSuccess threadID i (Status rp) (responseTimeOf r) ∈ printed (engine c sched) /\
   forall e rt, LRequestFailed threadID i e rt ∉ printed (engine c sched)) /\
  (keepConnectsOpen c = true ->
   forall e,
     do_err r = Some e ->
     LRequestFailed threadID i e (responseTimeOf r) ∈ printed (engine c sched)).
Proof.
  intros Hu Hws Hk Hi r Hresp _ Hret.
  destruct (engine_returned c sched Hret) as (gs & Hl & _ & _ & Ht & Hperf & Hpr).
  assert (forall l,
            ALogAppend l (responseTimeOf r)
            ∈ fetchData (url c) (sleepTime c) (keepConnectsOpen c)
                        (reuseConnects c) threadID numCalls ->
            l ∈ printed (engine c sched) /\
            responseTimeOf r ∈ times (engine c sched)) as Hout.
  { intros l Hin.
    pose proof (returned_performed c sched ws k threadID numCalls _
                  Hret Hws Hk Hin) as Hp.
    rewrite Hperf in Hp.
    destruct (performed_written sched gs k _ Hp) as [Hline Happ].
    rewrite Hpr, Ht. split; [|by apply Happ].
    apply elem_of_app. left. by apply Hline. }
  pose proof (response_logged c threadID numCalls i rp Hu Hi Hresp)
    as Hlog.
  split; [exact (proj2 (Hout _ Hlog))|]. split.
  - intros Hkeep Hclose. split.
    + apply (Hout _) in Hlog as [Hlog _]. revert Hlog. fold r.
      by rewrite Hkeep, Hclose.
    + intros e rt Hin.
      destruct (failure_line_origin c sched threadID i e rt Hu Hin) as [st Hst].
      unfold handleBody in Hst. fold r in Hst.
      rewrite Hresp, Hkeep in Hst. simpl in Hst. congruence.
  - intros Hkeep e He.
    apply (Hout _) in Hlog as [Hlog _]. revert Hlog. fold r.
    by rewrite Hkeep, He.
Qed.

Lemma failed_call_logged_as_success_witness :
  LSuccess 0 0 "302 Found" (responseTimeOf (@roundTrip redirect_world 0 0))
  ∈ printed (@engine redirect_world single_call_config [0; 0; 0; 0; 0; 0]%nat) /\
  forall e rt,
    LRequestFailed 0 0 e rt
    ∉ printed (@engine redirect_world single_call_config [0; 0; 0; 0; 0; 0]%nat).
Proof.
  destruct (@failed_call_logged_as_success redirect_world
              single_call_config [0; 0; 0; 0; 0; 0]%nat [(0, 1)] 0%nat 0 1 0
              (mkResponse "302 Found")) as (_ & H & _).
  - reflexivity.
  - vm_compute. reflexivity.
  - reflexivity.
  - lia.
  - reflexivity.
  - left. by eexists.
  - vm_compute. reflexivity.
  - exact (H eq_refl eq_refl).
Defined.

(** C9, as the claim states it, fails: nothing in the program makes the
    measured total time positive.  With one call and a clock that shows
    the same instant before the launch and after the join, the run returns
    with one response time, prints a total time of zero, which is not
    strictly greater than 0, and prints requests per second as the
    quotient of 1 by zero, which is infinite. *)
Lemma total_time_can_be_zero :
  let r := @engine stalled_clock_world single_call_config [0; 0; 0; 0; 0; 0]%nat in
  totalCalls single_call_config = 1 /\
  exit r = Returned /\
  length (times r) = 1%nat /\
  LRequestsPerSecond PrimFloat.infinity ∈ printed r /\
  ~ (forall t, LTotalTime t ∈ printed r -> PrimFloat.ltb PrimFloat.zero t = true).
Proof.
  assert (printed (@engine stalled_clock_world single_call_config
                     [0; 0; 0; 0; 0; 0]%nat)
          = [LSuccess 0 0 "200 OK" PrimFloat.zero;
             LTotalTime PrimFloat.zero;
             LAverageResponseTime PrimFloat.zero;
             LRequestsPerSecond PrimFloat.infinity;
             LFinished]) as Hp by (vm_compute; reflexivity).
  split; [reflexivity|]. split; [vm_compute; reflexivity|].
  split; [vm_compute; reflexivity|]. cbv zeta. rewrite Hp. split.
  - do 3 apply list_elem_of_further. apply list_elem_of_here.
  - intros H. specialize (H PrimFloat.zero).
    assert (PrimFloat.ltb PrimFloat.zero PrimFloat.zero = true) as Hlt.
    { apply H. apply list_elem_of_further, list_elem_of_here. }
    vm_compute in Hlt. discriminate.
Qed.

(** C9, amended. After the join of every returned run the output ends
    with the summary: the total time, which is the duration between the
    clock reading just before the launch of the first worker and the one
    just after the join, in seconds; the average response time, which is
    the [float64] sum of [responseTimes], accumulated in order from zero,
    divided by [float64] of its length; and the requests per second, which
    is [float64(totalCalls)] divided by the total time.  What precedes the
    summary are the per-call lines, whose times are [responseTimes].  The
    program does not make the total time strictly positive: when the two
    clock readings coincide it is zero. *)
Theorem summary_statistics `{W : World} (c : Config) (sched : list nat) :
  exit (engine c sched) = Returned ->
  let rts := times (engine c sched) in
  let totalTimeSeconds := time.Seconds run_elapsed in
  (exists log,
     printed (engine c sched)
     = log ++
       [LTotalTime totalTimeSeconds;
        LAverageResponseTime
          (PrimFloat.div (fold_left PrimFloat.add rts PrimFloat.zero)
                         (Float64.of_int (Z.of_nat (length rts))));
        LRequestsPerSecond
          (PrimFloat.div (Float64.of_int (totalCalls c)) totalTimeSeconds);
        LFinished] /\
     omap lineTime log = rts) /\
  (run_elapsed = 0 ->
   totalTimeSeconds = PrimFloat.zero /\
   PrimFloat.ltb PrimFloat.zero totalTimeSeconds = false).
Proof.
  intros Hret rts totalTimeSeconds. split.
  - destruct (engine_returned c sched Hret) as (gs & Hl & _ & _ & Ht & _ & Hp).
    exists (stdout (run sched (spawn gs))). unfold rts. rewrite Hp, Ht.
    split; [reflexivity|].
    by apply run_logged; [apply (launch_wellLogged c)|].
  - intros Hz. unfold totalTimeSeconds. rewrite Hz. split; reflexivity.
Qed.

Lemma summary_statistics_witness :
  exists log,
    printed (engine sample_config sample_schedule)
    = log ++
      [LTotalTime (time.Seconds 40000000);
       LAverageResponseTime
         (PrimFloat.div
            (fold_left PrimFloat.add (times (engine sample_config sample_schedule))
                       PrimFloat.zero)
            (Float64.of_int 5));
       LRequestsPerSecond
         (PrimFloat.div (Float64.of_int 5) (time.Seconds 40000000));
       LFinished] /\
    omap lineTime log = times (engine sample_config sample_schedule).
Proof.
  assert (exit (engine sample_config sample_schedule) = Returned) as Hr
    by (vm_compute; reflexivity).
  destruct (proj1 (summary_statistics sample_config sample_schedule Hr))
    as (log & Hp & Hl).
  exists log. split; [|exact Hl]. rewrite Hp. reflexivity.
Defined.
